(** * eth-portal bridge: header and receipt propagation

    A shallow embedding of [eth_portal/bridge.py]: the [PortalInserter]
    class and the [handle_new_header] pipeline that pushes block headers
    and receipts to a group of Portal nodes.

    Everything the module imports (keccak, rlp, py-evm, eth_utils, web3 and
    the sibling modules [web3_decoding] / [web3_encoding]) is kept abstract
    in the class [Foreign].  Calls that leave the process (the chain
    provider, the Portal nodes, stdout) are recorded, with what they
    returned, in the list of events a computation emits. *)

From Stdlib Require Import String List ZArith Bool Lia.
From ExtLib Require Import Structures.Monad.
Import ListNotations.
Import MonadNotation.
Local Open Scope monad_scope.
Local Open Scope string_scope.
Local Open Scope list_scope.

Set Implicit Arguments.

(** ** Byte strings *)

Definition bytes := list Byte.byte.

Definition bytes_eq_dec : forall a b : bytes, {a = b} + {a <> b} :=
  list_eq_dec Byte.byte_eq_dec.

(** Python's [a != b] on two byte strings. *)
Definition bytes_ne (a b : bytes) : bool :=
  if bytes_eq_dec a b then false else true.

(** ** Exceptions and results *)

(** [ValidationError] is the one exception class bridge.py raises itself;
    any other class raised by a callee is kept by name. *)
Inductive exception :=
| ValidationError (msg : string)
| OtherError (name : string).

Inductive result (A : Type) :=
| Ok (a : A)
| Raise (e : exception).
Arguments Ok {A} a.
Arguments Raise {A} e.

#[export] Instance Monad_result : Monad result :=
  {| ret := fun _ a => Ok a;
     bind := fun _ _ c k => match c with Ok a => k a | Raise e => Raise e end |}.

(** A list comprehension whose element expression may raise. *)
Fixpoint comprehension {A B} (f : A -> result B) (xs : list A) : result (list B) :=
  match xs with
  | [] => Ok []
  | x :: xs' =>
      y <- f x ;;
      ys <- comprehension f xs' ;;
      ret (y :: ys)
  end.

(** ** The web3 block record

    The result of [w3.eth.get_block(header_hash, full_transactions=False)]:
    the four attributes bridge.py reads itself, and the remaining header
    fields, which only [block_fields_to_header] looks at. *)
Record BlockFields (F : Type) := {
  hash : bytes;
  number : Z;
  receiptsRoot : bytes;
  transactions : list bytes;
  header_fields : F
}.

(** ** What bridge.py imports *)

Class Foreign := {
  (** a web3 instance: the chain provider, or the link to one Portal node *)
  Web3 : Type;
  (** whatever the chain provider and the Portal nodes are up to *)
  World : Type;
  (** a JSON-RPC response *)
  Response : Type;
  HeaderFields : Type;
  Web3Receipt : Type;
  (** py-evm header and receipt objects *)
  BlockHeader : Type;
  Receipt : Type;
  TrieNodes : Type;

  (** eth_hash.auto, rlp, eth_utils, eth.db.trie *)
  keccak : bytes -> bytes;
  rlp_encode : BlockHeader -> bytes;
  encode_hex : bytes -> string;
  make_trie_root_and_nodes : list Receipt -> bytes * TrieNodes;
  (** the [hash] property of a py-evm header *)
  BlockHeader_hash : BlockHeader -> bytes;

  (** eth_portal.web3_decoding *)
  block_fields_to_header : BlockFields HeaderFields -> result BlockHeader;
  receipt_fields_to_receipt : Web3Receipt -> Z -> result Receipt;
  (** eth_portal.web3_encoding *)
  header_content_key : bytes -> Z -> bytes;
  receipt_content_key : bytes -> Z -> bytes;
  receipt_content_value : list Receipt -> bytes;

  (** string conversions used by the error messages *)
  str_block_fields : BlockFields HeaderFields -> string;
  repr_header : BlockHeader -> string;
  bytes_hex : bytes -> string;

  (** w3.eth.get_block(block_identifier, full_transactions) *)
  get_block :
    Web3 -> bytes -> bool -> World -> result (BlockFields HeaderFields) * World;
  (** w3.eth.wait_for_transaction_receipt(txn_hash, poll_latency) *)
  wait_for_transaction_receipt :
    Web3 -> bytes -> Z -> World -> result Web3Receipt * World;
  (** w3.provider.make_request(method, params) *)
  make_request :
    Web3 -> string -> list string -> World -> result Response * World
}.

Section Bridge.

Context {F : Foreign}.

Definition block : Type := BlockFields HeaderFields.

(** ** Objects, state and events *)

(** A [PortalInserter] instance has one attribute. *)
Record PortalInserter := { _web3_links : list Web3 }.

(** Instances are referred to by identity. *)
Definition ref := nat.

Record state := {
  world : World;
  objects : ref -> PortalInserter
}.

(** Every call that leaves the process, with what it returned. *)
Inductive event :=
| Print (args : list string)
| GetBlock (w3 : Web3) (block_identifier : bytes) (full_transactions : bool)
    (returned : result block)
| WaitForTransactionReceipt (w3 : Web3) (txn_hash : bytes) (poll_latency : Z)
    (returned : result Web3Receipt)
| MakeRequest (w3 : Web3) (method : string) (params : list string)
    (returned : result Response).

Record outcome (A : Type) := {
  res : result A;
  final : state;
  emitted : list event
}.

(** A computation runs from a state to a result (a value or the exception
    that ended it), the state it left and the events it emitted. *)
Definition M (A : Type) := state -> outcome A.

#[export] Instance Monad_M : Monad M :=
  {| ret := fun _ a s => {| res := Ok a; final := s; emitted := [] |};
     bind := fun _ _ c k s =>
       let o := c s in
       match res o with
       | Ok a =>
           let o' := k a (final o) in
           {| res := res o'; final := final o';
              emitted := emitted o ++ emitted o' |}
       | Raise e => {| res := Raise e; final := final o; emitted := emitted o |}
       end |}.

(** A pure expression that may raise. *)
Definition lift {A} (r : result A) : M A :=
  fun s => {| res := r; final := s; emitted := [] |}.

Definition with_world (s : state) (w : World) : state :=
  {| world := w; objects := objects s |}.

Definition print (args : list string) : M unit :=
  fun s => {| res := Ok tt; final := s; emitted := [Print args] |}.

Definition eth_get_block (w3 : Web3) (block_identifier : bytes)
    (full_transactions : bool) : M block :=
  fun s =>
    let '(r, w) := get_block w3 block_identifier full_transactions (world s) in
    {| res := r; final := with_world s w;
       emitted := [GetBlock w3 block_identifier full_transactions r] |}.

Definition eth_wait_for_transaction_receipt (w3 : Web3) (txn_hash : bytes)
    (poll_latency : Z) : M Web3Receipt :=
  fun s =>
    let '(r, w) := wait_for_transaction_receipt w3 txn_hash poll_latency (world s) in
    {| res := r; final := with_world s w;
       emitted := [WaitForTransactionReceipt w3 txn_hash poll_latency r] |}.

Definition provider_make_request (w3 : Web3) (method : string)
    (params : list string) : M Response :=
  fun s =>
    let '(r, w) := make_request w3 method params (world s) in
    {| res := r; final := with_world s w;
       emitted := [MakeRequest w3 method params r] |}.

(** [self._web3_links] *)
Definition get_web3_links (self : ref) : M (list Web3) :=
  fun s => {| res := Ok (_web3_links (objects s self)); final := s; emitted := [] |}.

(** [self._web3_links = web3_links] *)
Definition set_web3_links (self : ref) (web3_links : list Web3) : M unit :=
  fun s =>
    {| res := Ok tt;
       final := {| world := world s;
                   objects := fun r => if Nat.eqb r self
                                       then {| _web3_links := web3_links |}
                                       else objects s r |};
       emitted := [] |}.

(** [for x in xs: body(x)] *)
Fixpoint for_each {A} (xs : list A) (body : A -> M unit) : M unit :=
  match xs with
  | [] => ret tt
  | x :: xs' => body x ;; for_each xs' body
  end.

(** [[f(x) for x in xs]] where [f] has effects. *)
Fixpoint collect {A B} (f : A -> M B) (xs : list A) : M (list B) :=
  match xs with
  | [] => ret []
  | x :: xs' =>
      y <- f x ;;
      ys <- collect f xs' ;;
      ret (y :: ys)
  end.

(** ** class PortalInserter *)

Definition PortalInserter__init__ (self : ref) (web3_links : list Web3) : M unit :=
  set_web3_links self web3_links.

Definition push_history (self : ref) (content_key content_value : bytes) : M unit :=
  let content_key_hex := encode_hex content_key in
  let content_value_hex := encode_hex content_value in
  print ["Propagate new history content with key, value:";
         content_key_hex; ","; content_value_hex] ;;
  web3_links <- get_web3_links self ;;
  for_each web3_links (fun w3 =>
    _ <- provider_make_request w3 "portal_historyStore"
           [content_key_hex; content_value_hex] ;;
    ret tt).

(** ** Headers *)

Definition block_fields_to_content (block_fields : block) (chain_id : Z)
    : result (bytes * bytes) :=
  header <- block_fields_to_header block_fields ;;
  let header_rlp := rlp_encode header in
  if bytes_ne (keccak header_rlp) (hash block_fields) then
    Raise (ValidationError (String.concat ""
      ["Could not correctly encode header fields ";
       str_block_fields block_fields; " to "; repr_header header]))
  else if bytes_ne (BlockHeader_hash header) (hash block_fields) then
    Raise (ValidationError (String.concat ""
      ["py-evm generated a different hash than we did manually with";
       " header fields "; str_block_fields block_fields; " to ";
       repr_header header]))
  else
    let content_key := header_content_key (hash block_fields) chain_id in
    ret (content_key, header_rlp).

Definition propagate_header (w3 : Web3) (portal_inserter : ref) (chain_id : Z)
    (header_hash : bytes) : M block :=
  block_fields <- eth_get_block w3 header_hash false ;;
  ' (content_key, content_value) <-
      lift (block_fields_to_content block_fields chain_id) ;;
  push_history portal_inserter content_key content_value ;;
  ret block_fields.

(** ** Receipts *)

Definition encode_receipts_content (web3_receipts : list Web3Receipt)
    (chain_id : Z) (header_hash : bytes) (block_number : Z)
    (receipt_root : bytes) : result (bytes * bytes) :=
  receipts <- comprehension
                (fun receipt => receipt_fields_to_receipt receipt block_number)
                web3_receipts ;;
  let '(calculated_root, _) := make_trie_root_and_nodes receipts in
  if bytes_ne calculated_root receipt_root then
    Raise (ValidationError (String.concat ""
      ["Could not correctly encode receipts for header ";
       bytes_hex header_hash]))
  else
    let content_key := receipt_content_key header_hash chain_id in
    let content_value := receipt_content_value receipts in
    ret (content_key, content_value).

Definition propagate_receipts (w3 : Web3) (portal_inserter : ref) (chain_id : Z)
    (block_fields : block) : M unit :=
  print ["Collecting receipts to propagate..."] ;;
  web3_receipts <- collect
                     (fun txn_hash => eth_wait_for_transaction_receipt w3 txn_hash 2)
                     (transactions block_fields) ;;
  print ["Collected receipts"] ;;
  ' (content_key, content_value) <-
      lift (encode_receipts_content web3_receipts chain_id
              (hash block_fields) (number block_fields)
              (receiptsRoot block_fields)) ;;
  push_history portal_inserter content_key content_value.

(** ** The pipeline

    [chain_id] defaults to 1 in the source; here it is always passed. *)

Definition handle_new_header (w3 : Web3) (portal_inserter : ref)
    (header_hash : bytes) (chain_id : Z) : M unit :=
  block_fields <- propagate_header w3 portal_inserter chain_id header_hash ;;
  propagate_receipts w3 portal_inserter chain_id block_fields.

(** ** Reading a list of events *)

(** The store requests made, in order: the node, the method, the parameters. *)
Fixpoint store_requests (t : list event) : list (Web3 * string * list string) :=
  match t with
  | [] => []
  | MakeRequest w3 method params _ :: t' =>
      (w3, method, params) :: store_requests t'
  | _ :: t' => store_requests t'
  end.

(** The receipt requests made, in order: provider, transaction hash, poll
    latency. *)
Fixpoint receipt_waits (t : list event) : list (Web3 * bytes * Z) :=
  match t with
  | [] => []
  | WaitForTransactionReceipt w3 txn_hash poll_latency _ :: t' =>
      (w3, txn_hash, poll_latency) :: receipt_waits t'
  | _ :: t' => receipt_waits t'
  end.

(** The web3 receipts the provider returned, in order. *)
Fixpoint fetched_receipts (t : list event) : list Web3Receipt :=
  match t with
  | [] => []
  | WaitForTransactionReceipt _ _ _ (Ok receipt) :: t' =>
      receipt :: fetched_receipts t'
  | _ :: t' => fetched_receipts t'
  end.

(** The line [push_history] prints on entry, read back: the hex key and the
    hex value. *)
Definition push_history_line (ev : event) : option (string * string) :=
  match ev with
  | Print [banner; key_hex; comma; value_hex] =>
      if String.eqb banner "Propagate new history content with key, value:"
         && String.eqb comma ","
      then Some (key_hex, value_hex) else None
  | _ => None
  end.

(** The calls of [push_history], in order, each seen through the line it
    prints on entry. *)
Fixpoint push_history_calls (t : list event) : list (string * string) :=
  match t with
  | [] => []
  | ev :: t' =>
      match push_history_line ev with
      | Some call => call :: push_history_calls t'
      | None => push_history_calls t'
      end
  end.

(** Events of a [push_history] call: its line and its store requests. *)
Definition is_push_event (ev : event) : bool :=
  match ev with
  | MakeRequest _ _ _ _ => true
  | Print _ => match push_history_line ev with Some _ => true | None => false end
  | _ => false
  end.

(** Events of the receipt collection of [propagate_receipts]: its two
    lines and its receipt requests. *)
Definition is_receipt_fetch_event (ev : event) : bool :=
  match ev with
  | WaitForTransactionReceipt _ _ _ _ => true
  | Print [line] =>
      String.eqb line "Collecting receipts to propagate..."
      || String.eqb line "Collected receipts"
  | _ => false
  end.

(** Did the call behind this event end in an exception? *)
Definition raised (ev : event) : bool :=
  match ev with
  | GetBlock _ _ _ (Raise _) => true
  | WaitForTransactionReceipt _ _ _ (Raise _) => true
  | MakeRequest _ _ _ (Raise _) => true
  | _ => false
  end.

(** No call behind these events ended in an exception. *)
Definition quiet (t : list event) : bool :=
  forallb (fun ev => negb (raised ev)) t.

(** The second line of [propagate_receipts] is among the events. *)
Definition receipts_collected (t : list event) : bool :=
  existsb (fun ev => match ev with
                     | Print [line] => String.eqb line "Collected receipts"
                     | _ => false
                     end) t.

(** The store requests that raised: the node and the exception. *)
Fixpoint raised_requests (t : list event) : list (Web3 * exception) :=
  match t with
  | [] => []
  | MakeRequest w3 _ _ (Raise e) :: t' => (w3, e) :: raised_requests t'
  | _ :: t' => raised_requests t'
  end.

(** The receipt requests that raised: the transaction hash and the
    exception. *)
Fixpoint raised_waits (t : list event) : list (bytes * exception) :=
  match t with
  | [] => []
  | WaitForTransactionReceipt _ txn_hash _ (Raise e) :: t' =>
      (txn_hash, e) :: raised_waits t'
  | _ :: t' => raised_waits t'
  end.

(** The store request [push_history] makes to node [w3]. *)
Definition store_request (content_key content_value : bytes) (w3 : Web3)
    : Web3 * string * list string :=
  (w3, "portal_historyStore", [encode_hex content_key; encode_hex content_value]).

(** The receipt request [propagate_receipts] makes for [txn_hash]. *)
Definition receipt_request (w3 : Web3) (txn_hash : bytes) : Web3 * bytes * Z :=
  (w3, txn_hash, 2%Z).

(** The two error messages of [block_fields_to_content] and the one of
    [encode_receipts_content]. *)
Definition header_encoding_error (block_fields : block) (header : BlockHeader)
    : exception :=
  ValidationError (String.concat ""
    ["Could not correctly encode header fields ";
     str_block_fields block_fields; " to "; repr_header header]).

Definition header_hash_error (block_fields : block) (header : BlockHeader)
    : exception :=
  ValidationError (String.concat ""
    ["py-evm generated a different hash than we did manually with";
     " header fields "; str_block_fields block_fields; " to ";
     repr_header header]).

Definition receipts_root_error (header_hash : bytes) : exception :=
  ValidationError (String.concat ""
    ["Could not correctly encode receipts for header "; bytes_hex header_hash]).

(** The events of one [push_history] call that got as far as [sent]. *)
Definition push_events (content_key content_value : bytes)
    (sent : list (Web3 * result Response)) : list event :=
  Print ["Propagate new history content with key, value:";
         encode_hex content_key; ","; encode_hex content_value]
  :: map (fun p => MakeRequest (fst p) "portal_historyStore"
                     [encode_hex content_key; encode_hex content_value] (snd p))
         sent.

Definition wait_events (w3 : Web3) (waited : list (bytes * result Web3Receipt))
    : list event :=
  map (fun p => WaitForTransactionReceipt w3 (fst p) 2 (snd p)) waited.

End Bridge.

(** Going through [xs] in order with a call that may raise: [tried] pairs
    each element reached with what its call returned, and stops with the
    first one that raised; the last index is the overall result. *)
Inductive attempts {A R : Type}
    : list A -> list (A * result R) -> result (list R) -> Prop :=
| attempts_nil : attempts [] [] (Ok [])
| attempts_raise x xs e : attempts (x :: xs) [(x, Raise e)] (Raise e)
| attempts_next x xs r tried out :
    attempts xs tried out ->
    attempts (x :: xs) ((x, Ok r) :: tried) (rs <- out ;; ret (r :: rs)).

(** ** The shapes a run can take

    What [propagate_header], [propagate_receipts] and [handle_new_header]
    can emit and return, as relations between the result and the events;
    [links] is the node collection of the inserter. *)
Section Runs.

Context {F : Foreign}.

Variables (links : list Web3) (w3 : Web3) (chain_id : Z).

Inductive header_run (header_hash : bytes) : result block -> list event -> Prop :=
| header_fetch_raised e :
    header_run header_hash (Raise e) [GetBlock w3 header_hash false (Raise e)]
| header_rejected block_fields e :
    block_fields_to_content block_fields chain_id = Raise e ->
    header_run header_hash (Raise e)
      [GetBlock w3 header_hash false (Ok block_fields)]
| header_pushed block_fields content_key content_value tried out :
    block_fields_to_content block_fields chain_id
      = Ok (content_key, content_value) ->
    attempts links tried out ->
    header_run header_hash (_ <- out ;; ret block_fields)
      (GetBlock w3 header_hash false (Ok block_fields)
       :: push_events content_key content_value tried).

Inductive receipts_run (block_fields : block) : result unit -> list event -> Prop :=
| receipts_wait_raised waited e :
    attempts (transactions block_fields) waited (Raise e) ->
    receipts_run block_fields (Raise e)
      (Print ["Collecting receipts to propagate..."] :: wait_events w3 waited)
| receipts_rejected waited web3_receipts e :
    attempts (transactions block_fields) waited (Ok web3_receipts) ->
    encode_receipts_content web3_receipts chain_id (hash block_fields)
      (number block_fields) (receiptsRoot block_fields) = Raise e ->
    receipts_run block_fields (Raise e)
      (Print ["Collecting receipts to propagate..."]
       :: wait_events w3 waited ++ [Print ["Collected receipts"]])
| receipts_pushed waited web3_receipts content_key content_value tried out :
    attempts (transactions block_fields) waited (Ok web3_receipts) ->
    encode_receipts_content web3_receipts chain_id (hash block_fields)
      (number block_fields) (receiptsRoot block_fields)
      = Ok (content_key, content_value) ->
    attempts links tried out ->
    receipts_run block_fields (_ <- out ;; ret tt)
      (Print ["Collecting receipts to propagate..."]
       :: wait_events w3 waited
       ++ Print ["Collected receipts"]
       :: push_events content_key content_value tried).

Inductive notification_run (header_hash : bytes) : result unit -> list event -> Prop :=
| notification_header_failed e t :
    header_run header_hash (Raise e) t ->
    notification_run header_hash (Raise e) t
| notification_receipts block_fields t r t' :
    header_run header_hash (Ok block_fields) t ->
    receipts_run block_fields r t' ->
    notification_run header_hash r (t ++ t').

End Runs.

(** ** A small concrete world

    Stand-ins for the imported functions, small enough to run the pipeline
    by evaluation: the digest reverses its input, a header object carries
    its encoding and the hash it reports, receipts are byte strings.  The
    chain has five blocks; node 9 is unreachable; the receipt of
    transaction [ff] never arrives. *)
Module Scenario.

Import Byte.

Definition digest (b : bytes) : bytes := rev b.

Definition hex_digit (n : nat) : string := String.substring n 1 "0123456789abcdef".

Definition hex_of_bytes (b : bytes) : string :=
  String.concat ""
    (map (fun x => let n := Byte.to_nat x in
                   String.append (hex_digit (n / 16)) (hex_digit (n mod 16))) b).

Definition Block : Type := BlockFields (bytes * bytes).

Definition healthy : Block :=
  {| hash := [x0b; x0a]; number := 100; receiptsRoot := [x02; x01];
     transactions := [[x01]; [x02]];
     header_fields := ([x0a; x0b], [x0b; x0a]) |}.

(** the provider asserts a hash the encoded header does not have *)
Definition corrupt_header : Block :=
  {| hash := [xee]; number := 101; receiptsRoot := [x02; x01];
     transactions := [[x01]; [x02]];
     header_fields := ([x0a; x0b], [x0b; x0a]) |}.

(** the encoding hashes to the asserted hash, the header object reports
    another one *)
Definition disagreeing_header : Block :=
  {| hash := [x0d; x0c]; number := 102; receiptsRoot := [x02; x01];
     transactions := [[x01]; [x02]];
     header_fields := ([x0c; x0d], [x00]) |}.

(** the receipts do not hash to the receipts root of the header *)
Definition corrupt_receipts : Block :=
  {| hash := [x0f; x0e]; number := 103; receiptsRoot := [x00];
     transactions := [[x01]; [x02]];
     header_fields := ([x0e; x0f], [x0f; x0e]) |}.

(** the first transaction never gets a receipt *)
Definition stuck : Block :=
  {| hash := [x11; x10]; number := 104; receiptsRoot := [x02];
     transactions := [[xff]; [x02]];
     header_fields := ([x10; x11], [x11; x10]) |}.

Definition chain : list Block :=
  [healthy; corrupt_header; disagreeing_header; corrupt_receipts; stuck].

Definition toy : Foreign :=
  {| Web3 := nat;
     World := nat;
     Response := unit;
     HeaderFields := bytes * bytes;
     Web3Receipt := bytes;
     BlockHeader := bytes * bytes;
     Receipt := bytes;
     TrieNodes := unit;
     keccak := digest;
     rlp_encode := fst;
     encode_hex := fun b => String.append "0x" (hex_of_bytes b);
     make_trie_root_and_nodes := fun receipts => (digest (List.concat receipts), tt);
     BlockHeader_hash := snd;
     block_fields_to_header := fun block_fields => Ok (header_fields block_fields);
     receipt_fields_to_receipt := fun receipt _ => Ok receipt;
     header_content_key := fun h _ => x00 :: h;
     receipt_content_key := fun h _ => x02 :: h;
     receipt_content_value := @List.concat Byte.byte;
     str_block_fields := fun block_fields => hex_of_bytes (hash block_fields);
     repr_header := fun header => hex_of_bytes (fst header);
     bytes_hex := hex_of_bytes;
     get_block := fun _ block_identifier _ calls =>
       (match find (fun b => if bytes_eq_dec (hash b) block_identifier
                             then true else false) chain with
        | Some b => Ok b
        | None => Raise (OtherError "BlockNotFound")
        end, S calls);
     wait_for_transaction_receipt := fun _ txn_hash _ calls =>
       (if bytes_eq_dec txn_hash [xff]
        then Raise (OtherError "TimeExhausted") else Ok txn_hash, S calls);
     make_request := fun node _ _ calls =>
       (if Nat.eqb node 9 then Raise (OtherError "ConnectionError") else Ok tt,
        S calls) |}.

(** The chain provider is web3 instance 0; the one inserter is object 0. *)
Definition provider : nat := 0.
Definition inserter : nat := 0.

Definition start (web3_links : list nat) : @state toy :=
  @Build_state toy 0%nat (fun _ => @Build_PortalInserter toy web3_links).

End Scenario.


(** * More of bridge.py *)

Section MoreEvents.

Context {F : Foreign}.

(** The exception the call behind an event ended in, if any. *)
Definition exception_of (ev : event) : option exception :=
  match ev with
  | GetBlock _ _ _ (Raise e) => Some e
  | WaitForTransactionReceipt _ _ _ (Raise e) => Some e
  | MakeRequest _ _ _ (Raise e) => Some e
  | _ => None
  end.

(** The block requests made, in order: provider, block identifier and the
    [full_transactions] flag. *)
Fixpoint block_fetches (t : list event) : list (Web3 * bytes * bool) :=
  match t with
  | [] => []
  | GetBlock w3 block_identifier full_transactions _ :: t' =>
      (w3, block_identifier, full_transactions) :: block_fetches t'
  | _ :: t' => block_fetches t'
  end.

End MoreEvents.

(** ** launch_trin_inserters

    [eth_portal.trin.launch_trin(key, port)] makes a context manager:
    entering it starts a trin node and returns a web3 link to it, leaving it
    stops the node.  Leaving is told the exception in flight, if any, and a
    true return value swallows that exception. *)
Class Trin (F : Foreign) := {
  launch_trin_enter : bytes -> Z -> World -> result Web3 * World;
  launch_trin_exit :
    bytes -> Z -> option exception -> World -> result bool * World
}.

Section Launcher.

Context {F : Foreign} {T : Trin F}.

(** What happens during
    [with launch_trin_inserters(keys) as portal_inserter: body]. *)
Inductive session_event :=
| EnterTrin (key : bytes) (port : Z) (returned : result Web3)
| ExitTrin (key : bytes) (port : Z) (exc : option exception)
    (returned : result bool)
| InBody (ev : event).

Record session := {
  session_res : result unit;
  session_final : state;
  session_emitted : list session_event
}.

(** [enumerate(keys)], counting from [idx]. *)
Fixpoint enumerate (idx : Z) (keys : list bytes) : list (Z * bytes) :=
  match keys with
  | [] => []
  | key :: keys' => (idx, key) :: enumerate (idx + 1) keys'
  end.

(** The exit callbacks of a [contextlib.ExitStack], the last registered
    first: each is the [__exit__] of the context manager made by
    [launch_trin(key, port)]. *)
Definition ExitStack := list (bytes * Z).

(** [[stack.enter_context(launch_trin(key, 9000 + idx)) for idx, key in ...]]:
    the links collected, or the exception that ended the comprehension, and
    the callbacks registered on the way. *)
Fixpoint enter_contexts (pairs : list (Z * bytes)) (stack : ExitStack)
    (s : state)
    : result (list Web3) * ExitStack * state * list session_event :=
  match pairs with
  | [] => (Ok [], stack, s, [])
  | (idx, key) :: pairs' =>
      let port := (9000 + idx)%Z in
      let '(r, w) := launch_trin_enter key port (world s) in
      match r with
      | Raise e => (Raise e, stack, with_world s w, [EnterTrin key port r])
      | Ok link =>
          let '(r', stack', s', t) :=
            enter_contexts pairs' ((key, port) :: stack) (with_world s w) in
          (links <- r' ;; ret (link :: links), stack', s',
           EnterTrin key port r :: t)
      end
  end.

(** The local variables of [ExitStack.__exit__]. *)
Record exit_vars := {
  exc : option exception;
  suppressed_exc : bool;
  pending_raise : bool
}.

(** The loop of [ExitStack.__exit__]: the callbacks are called last
    registered first, each with the exception then in flight; one that
    returns true clears it, one that raises replaces it. *)
Fixpoint exit_callbacks (stack : ExitStack) (vars : exit_vars) (s : state)
    : exit_vars * state * list session_event :=
  match stack with
  | [] => (vars, s, [])
  | (key, port) :: stack' =>
      let '(r, w) := launch_trin_exit key port (exc vars) (world s) in
      let vars' :=
        match r with
        | Ok true =>
            {| exc := None; suppressed_exc := true; pending_raise := false |}
        | Ok false => vars
        | Raise new_exc =>
            {| exc := Some new_exc; suppressed_exc := suppressed_exc vars;
               pending_raise := true |}
        end in
      let '(vars'', s', t) := exit_callbacks stack' vars' (with_world s w) in
      (vars'', s', ExitTrin key port (exc vars) r :: t)
  end.

(** [ExitStack.__exit__(exc_value)]: raises the exception a callback left
    pending, otherwise returns [received_exc and suppressed_exc]. *)
Definition ExitStack__exit__ (stack : ExitStack) (exc_value : option exception)
    (s : state) : result bool * state * list session_event :=
  let '(vars, s', t) :=
    exit_callbacks stack
      {| exc := exc_value; suppressed_exc := false; pending_raise := false |}
      s in
  (if pending_raise vars
   then match exc vars with
        | Some e => Raise e
        | None => Raise (OtherError "TypeError")
        end
   else Ok (match exc_value with
            | Some _ => suppressed_exc vars
            | None => false
            end),
   s', t).

(** [with launch_trin_inserters(keys) as portal_inserter: body], where
    [self] is the identity the new [PortalInserter] object gets.

    The generator runs to its [yield] inside [with ExitStack() as stack];
    when the comprehension raises, the stack is left with that exception and
    the body never runs (a swallowed exception then makes [__enter__] raise
    RuntimeError, the generator not having yielded).  Otherwise the body
    runs, and the generator is resumed, or the body's exception thrown into
    it, so that the stack is left with the body's exception, if any. *)
Definition launch_trin_inserters (keys : list bytes) (self : ref)
    (body : ref -> M unit) (s : state) : session :=
  let '(r, stack, s1, t1) := enter_contexts (enumerate 0 keys) [] s in
  match r with
  | Raise e =>
      let '(leaving, s2, t2) := ExitStack__exit__ stack (Some e) s1 in
      {| session_res :=
           match leaving with
           | Raise e' => Raise e'
           | Ok true => Raise (OtherError "RuntimeError")
           | Ok false => Raise e
           end;
         session_final := s2;
         session_emitted := t1 ++ t2 |}
  | Ok web3_links =>
      let constructed := PortalInserter__init__ self web3_links s1 in
      let ran := body self (final constructed) in
      let exc_value :=
        match res ran with Ok _ => None | Raise e => Some e end in
      let '(leaving, s3, t3) := ExitStack__exit__ stack exc_value (final ran) in
      {| session_res :=
           match leaving with
           | Raise e' => Raise e'
           | Ok swallowed =>
               match res ran with
               | Ok _ => Ok tt
               | Raise e => if swallowed then Ok tt else Raise e
               end
           end;
         session_final := s3;
         session_emitted := t1 ++ map InBody (emitted ran) ++ t3 |}
  end.

(** ** Reading the events of a session *)

(** The launches attempted, in order: key and port. *)
Fixpoint launches (t : list session_event) : list (bytes * Z) :=
  match t with
  | [] => []
  | EnterTrin key port _ :: t' => (key, port) :: launches t'
  | _ :: t' => launches t'
  end.

(** The nodes started, in order: key, port and the link returned. *)
Fixpoint started (t : list session_event) : list (bytes * Z * Web3) :=
  match t with
  | [] => []
  | EnterTrin key port (Ok link) :: t' => (key, port, link) :: started t'
  | _ :: t' => started t'
  end.

(** The launches that raised. *)
Fixpoint failed_launches (t : list session_event)
    : list (bytes * Z * exception) :=
  match t with
  | [] => []
  | EnterTrin key port (Raise e) :: t' => (key, port, e) :: failed_launches t'
  | _ :: t' => failed_launches t'
  end.

(** The nodes stopped, in order: key and port. *)
Fixpoint stopped (t : list session_event) : list (bytes * Z) :=
  match t with
  | [] => []
  | ExitTrin key port _ _ :: t' => (key, port) :: stopped t'
  | _ :: t' => stopped t'
  end.

(** What the exit callbacks returned, in order. *)
Fixpoint exit_results (t : list session_event) : list (result bool) :=
  match t with
  | [] => []
  | ExitTrin _ _ _ r :: t' => r :: exit_results t'
  | _ :: t' => exit_results t'
  end.

(** The events of the body, in order. *)
Fixpoint body_events (t : list session_event) : list event :=
  match t with
  | [] => []
  | InBody ev :: t' => ev :: body_events t'
  | _ :: t' => body_events t'
  end.

End Launcher.

(** ** A second concrete world

    The world of [Scenario] with two more blocks (one without transactions,
    one whose second receipt cannot be decoded) and a receipt decoder that
    rejects the empty receipt; [launch_trin] fails for key [ff], and the
    node of key [ee] cannot be stopped. *)
Module Scenario2.

Import Byte.
Import Scenario.

Definition empty_block : Block :=
  {| hash := [x21; x20]; number := 105; receiptsRoot := [];
     transactions := [];
     header_fields := ([x20; x21], [x21; x20]) |}.

Definition undecodable : Block :=
  {| hash := [x31; x30]; number := 106; receiptsRoot := [x01];
     transactions := [[x01]; []; [x02]];
     header_fields := ([x30; x31], [x31; x30]) |}.

Definition chain2 : list Block := chain ++ [empty_block; undecodable].

Definition toy2 : Foreign :=
  {| Web3 := nat;
     World := nat;
     Response := unit;
     HeaderFields := bytes * bytes;
     Web3Receipt := bytes;
     BlockHeader := bytes * bytes;
     Receipt := bytes;
     TrieNodes := unit;
     keccak := digest;
     rlp_encode := fst;
     encode_hex := fun b => String.append "0x" (hex_of_bytes b);
     make_trie_root_and_nodes := fun receipts => (digest (List.concat receipts), tt);
     BlockHeader_hash := snd;
     block_fields_to_header := fun block_fields => Ok (header_fields block_fields);
     receipt_fields_to_receipt := fun receipt _ =>
       match receipt with
       | [] => Raise (OtherError "KeyError")
       | _ => Ok receipt
       end;
     header_content_key := fun h _ => x00 :: h;
     receipt_content_key := fun h _ => x02 :: h;
     receipt_content_value := @List.concat Byte.byte;
     str_block_fields := fun block_fields => hex_of_bytes (hash block_fields);
     repr_header := fun header => hex_of_bytes (fst header);
     bytes_hex := hex_of_bytes;
     get_block := fun _ block_identifier _ calls =>
       (match find (fun b => if bytes_eq_dec (hash b) block_identifier
                             then true else false) chain2 with
        | Some b => Ok b
        | None => Raise (OtherError "BlockNotFound")
        end, S calls);
     wait_for_transaction_receipt := fun _ txn_hash _ calls =>
       (if bytes_eq_dec txn_hash [xff]
        then Raise (OtherError "TimeExhausted") else Ok txn_hash, S calls);
     make_request := fun node _ _ calls =>
       (if Nat.eqb node 9 then Raise (OtherError "ConnectionError") else Ok tt,
        S calls) |}.

(** The node launched on port 9000 + i is web3 instance i + 1. *)
Definition enter2 (key : bytes) (port : Z) (calls : nat) : result nat * nat :=
  (if bytes_eq_dec key [xff]
   then Raise (OtherError "TrinFailed")
   else Ok (S (Z.to_nat (port - 9000))), S calls).

Definition exit2 (key : bytes) (port : Z) (exc : option exception)
    (calls : nat) : result bool * nat :=
  (if bytes_eq_dec key [xee]
   then Raise (OtherError "ProcessLookupError") else Ok false, S calls).

Definition trin2 : Trin toy2 := @Build_Trin toy2 enter2 exit2.

Definition start2 (web3_links : list nat) : @state toy2 :=
  @Build_state toy2 0%nat (fun _ => @Build_PortalInserter toy2 web3_links).

End Scenario2.

(** * Properties *)

Section Properties.

Context {F : Foreign}.

(** ** Comparisons *)

Lemma bytes_ne_false (a b : bytes) : bytes_ne a b = false <-> a = b.
Proof.
  unfold bytes_ne. destruct (bytes_eq_dec a b); split; congruence.
Qed.

Lemma bytes_ne_true (a b : bytes) : bytes_ne a b = true <-> a <> b.
Proof.
  unfold bytes_ne. destruct (bytes_eq_dec a b); split; congruence.
Qed.

(** ** Attempts *)

Lemma attempts_prefix {A R} (xs : list A) (tried : list (A * result R)) out :
  attempts xs tried out -> map fst tried = firstn (length tried) xs.
Proof.
  induction 1; simpl; congruence.
Qed.

Lemma attempts_length {A R} (xs : list A) (tried : list (A * result R)) out :
  attempts xs tried out -> length tried <= length xs.
Proof.
  induction 1; simpl; lia.
Qed.

Lemma attempts_Ok {A R} (xs : list A) (tried : list (A * result R)) rs :
  attempts xs tried (Ok rs) ->
  map fst tried = xs /\ map snd tried = map Ok rs.
Proof.
  intros H. remember (Ok rs) as out eqn:E. revert rs E.
  induction H as [| x xs e | x xs r tried out H IH]; intros rs E.
  - inversion E. auto.
  - discriminate.
  - destruct out as [rs' | e]; simpl in E; [ | discriminate ].
    inversion E; subst. destruct (IH rs' eq_refl) as [H1 H2].
    simpl. split; congruence.
Qed.

Lemma attempts_Raise {A R} (xs : list A) (tried : list (A * result R)) e :
  attempts xs tried (Raise e) ->
  exists before x after,
    xs = map fst before ++ x :: after /\
    tried = before ++ [(x, Raise e)] /\
    Forall (fun p => exists r, snd p = Ok r) before.
Proof.
  intros H. remember (Raise e) as out eqn:E. revert E.
  induction H as [| x xs e' | x xs r tried out H IH]; intros E.
  - discriminate.
  - inversion E; subst. exists [], x, xs. auto.
  - destruct out as [rs' | e']; simpl in E; [ discriminate | ].
    inversion E; subst.
    destruct (IH eq_refl) as (before & y & after & -> & -> & Hall).
    exists ((x, Ok r) :: before), y, after. simpl.
    repeat split. constructor; [ eexists; reflexivity | exact Hall ].
Qed.

(** ** Running the monad *)

Lemma run_bind_Ok {A B} (c : M A) (k : A -> M B) s a s1 t :
  c s = {| res := Ok a; final := s1; emitted := t |} ->
  bind c k s = {| res := res (k a s1); final := final (k a s1);
                  emitted := t ++ emitted (k a s1) |}.
Proof.
  intros H. cbn [bind Monad_M]. rewrite H. reflexivity.
Qed.

Lemma run_bind_Raise {A B} (c : M A) (k : A -> M B) s e s1 t :
  c s = {| res := Raise e; final := s1; emitted := t |} ->
  bind c k s = {| res := Raise e; final := s1; emitted := t |}.
Proof.
  intros H. cbn [bind Monad_M]. rewrite H. reflexivity.
Qed.

Lemma run_ret {A} (a : A) (s : state) :
  (ret a : M A) s = {| res := Ok a; final := s; emitted := [] |}.
Proof. reflexivity. Qed.

Lemma outcome_eta {A} (o : outcome A) :
  o = {| res := res o; final := final o; emitted := emitted o |}.
Proof. destruct o; reflexivity. Qed.

(** ** The two loops *)

Lemma for_each_make_request (method : string) (params : list string)
    (web3_links : list Web3) (s : state) :
  let out := for_each web3_links
               (fun w3 => _ <- provider_make_request w3 method params ;; ret tt) s in
  exists tried r,
    attempts web3_links tried r /\
    res out = (_ <- r ;; ret tt) /\
    emitted out = map (fun p => MakeRequest (fst p) method params (snd p)) tried /\
    objects (final out) = objects s.
Proof.
  cbv zeta. revert s. induction web3_links as [| w3 rest IH]; intros s.
  - exists [], (Ok []). repeat split. constructor.
  - cbn [for_each].
    set (body := fun w3 => _ <- provider_make_request w3 method params ;; ret tt) in *.
    assert (Hfirst :
      (exists r w,
         body w3 s = {| res := Ok tt; final := with_world s w;
                        emitted := [MakeRequest w3 method params (Ok r)] |}) \/
      (exists e w,
         body w3 s = {| res := Raise e; final := with_world s w;
                        emitted := [MakeRequest w3 method params (Raise e)] |})).
    { unfold body, provider_make_request. cbn [bind Monad_M].
      destruct (make_request w3 method params (world s)) as [[r | e] w];
        cbn [res final emitted]; [ left; exists r, w | right; exists e, w ];
        reflexivity. }
    destruct Hfirst as [(r & w & Hs) | (e & w & Hs)].
    + rewrite (run_bind_Ok _ _ _ Hs). cbn [res final emitted].
      destruct (IH (with_world s w)) as (tried & out & Ha & Hr' & He' & Ho').
      exists ((w3, Ok r) :: tried), (rs <- out ;; ret (r :: rs)).
      split; [ constructor; exact Ha | ].
      rewrite Hr', He', Ho'. cbn [map fst snd app with_world objects].
      destruct out; auto.
    + rewrite (run_bind_Raise _ _ _ Hs). cbn [res final emitted].
      exists [(w3, Raise e)], (Raise e).
      split; [ constructor | ]. auto.
Qed.

Lemma collect_wait_for_receipts (w3 : Web3) (txn_hashes : list bytes) (s : state) :
  let out := collect
               (fun txn_hash => eth_wait_for_transaction_receipt w3 txn_hash 2)
               txn_hashes s in
  exists waited,
    attempts txn_hashes waited (res out) /\
    emitted out = wait_events w3 waited /\
    objects (final out) = objects s.
Proof.
  cbv zeta. revert s. induction txn_hashes as [| txn_hash rest IH]; intros s.
  - exists []. repeat split. constructor.
  - cbn [collect].
    set (wait := fun txn_hash => eth_wait_for_transaction_receipt w3 txn_hash 2) in *.
    assert (Hfirst :
      exists r w,
        wait txn_hash s = {| res := r; final := with_world s w;
                             emitted := [WaitForTransactionReceipt w3 txn_hash 2 r] |}).
    { unfold wait, eth_wait_for_transaction_receipt.
      destruct (wait_for_transaction_receipt w3 txn_hash 2 (world s)) as [r w].
      eauto. }
    destruct Hfirst as ([receipt | e] & w & Hs).
    + rewrite (run_bind_Ok _ _ _ Hs). cbn [res final emitted].
      destruct (IH (with_world s w)) as (waited & Ha & He & Ho).
      exists ((txn_hash, Ok receipt) :: waited).
      set (rest_out := collect wait rest (with_world s w)) in *.
      destruct (res rest_out) as [receipts | e] eqn:Hrest.
      * rewrite (run_bind_Ok _ _ _ (eq_trans (outcome_eta rest_out)
                  (f_equal (fun r => Build_outcome r _ _) Hrest))).
        cbn [res final emitted ret Monad_M]. rewrite app_nil_r, He, Ho.
        split; [ | auto ].
        apply (attempts_next txn_hash receipt Ha).
      * rewrite (run_bind_Raise _ _ _ (eq_trans (outcome_eta rest_out)
                  (f_equal (fun r => Build_outcome r _ _) Hrest))).
        cbn [res final emitted]. rewrite He, Ho.
        split; [ | auto ].
        apply (attempts_next txn_hash receipt Ha).
    + rewrite (run_bind_Raise _ _ _ Hs). cbn [res final emitted].
      exists [(txn_hash, Raise e)].
      split; [ constructor | ]. auto.
Qed.

(** ** Every run has one of the shapes *)

Lemma push_history_run (self : ref) (content_key content_value : bytes)
    (s : state) :
  let out := push_history self content_key content_value s in
  exists tried r,
    attempts (_web3_links (objects s self)) tried r /\
    res out = (_ <- r ;; ret tt) /\
    emitted out = push_events content_key content_value tried /\
    objects (final out) = objects s.
Proof.
  cbv zeta. unfold push_history.
  erewrite run_bind_Ok by reflexivity.
  erewrite run_bind_Ok by reflexivity.
  cbn [res final emitted app].
  destruct (for_each_make_request "portal_historyStore"
              [encode_hex content_key; encode_hex content_value]
              (_web3_links (objects s self)) s)
    as (tried & r & Ha & Hr & He & Ho).
  exists tried, r. unfold push_events. rewrite Hr, He, Ho. auto.
Qed.

Lemma eth_get_block_run (w3 : Web3) (block_identifier : bytes)
    (full_transactions : bool) (s : state) :
  exists w,
    eth_get_block w3 block_identifier full_transactions s =
    {| res := fst (get_block w3 block_identifier full_transactions (world s));
       final := with_world s w;
       emitted := [GetBlock w3 block_identifier full_transactions
                     (fst (get_block w3 block_identifier full_transactions
                             (world s)))] |}.
Proof.
  unfold eth_get_block.
  destruct (get_block w3 block_identifier full_transactions (world s)) as [r w].
  exists w. reflexivity.
Qed.

Lemma propagate_header_run (w3 : Web3) (portal_inserter : ref) (chain_id : Z)
    (header_hash : bytes) (s : state) :
  let out := propagate_header w3 portal_inserter chain_id header_hash s in
  header_run (_web3_links (objects s portal_inserter)) w3 chain_id header_hash
    (res out) (emitted out) /\
  objects (final out) = objects s /\
  hd_error (emitted out)
    = Some (GetBlock w3 header_hash false
              (fst (get_block w3 header_hash false (world s)))).
Proof.
  cbv zeta. unfold propagate_header.
  destruct (eth_get_block_run w3 header_hash false s) as (w & Hget).
  destruct (fst (get_block w3 header_hash false (world s)))
    as [block_fields | e].
  - rewrite (run_bind_Ok _ _ _ Hget).
    destruct (block_fields_to_content block_fields chain_id)
      as [[content_key content_value] | e] eqn:Hcontent.
    + erewrite run_bind_Ok by reflexivity.
      cbn [res final emitted app].
      destruct (push_history_run portal_inserter content_key content_value
                  (with_world s w)) as (tried & r & Ha & Hr & He & Ho).
      set (pushed := push_history portal_inserter content_key content_value
                       (with_world s w)) in *.
      destruct r as [rs | e]; cbn [bind Monad_result] in Hr.
      * rewrite (run_bind_Ok _ _ _ (eq_trans (outcome_eta pushed)
                  (f_equal (fun r => Build_outcome r _ _) Hr))).
        cbn [res final emitted ret Monad_M]. rewrite app_nil_r, He, Ho.
        repeat split.
        apply header_pushed with (tried := tried) (out := Ok rs); assumption.
      * rewrite (run_bind_Raise _ _ _ (eq_trans (outcome_eta pushed)
                  (f_equal (fun r => Build_outcome r _ _) Hr))).
        cbn [res final emitted]. rewrite He, Ho.
        repeat split.
        apply header_pushed with (tried := tried) (out := Raise e); assumption.
    + erewrite run_bind_Raise by reflexivity.
      cbn [res final emitted app]. repeat split.
      apply header_rejected. exact Hcontent.
  - rewrite (run_bind_Raise _ _ _ Hget). cbn [res final emitted].
    repeat split. apply header_fetch_raised.
Qed.

Lemma propagate_receipts_run (w3 : Web3) (portal_inserter : ref) (chain_id : Z)
    (block_fields : block) (s : state) :
  let out := propagate_receipts w3 portal_inserter chain_id block_fields s in
  receipts_run (_web3_links (objects s portal_inserter)) w3 chain_id block_fields
    (res out) (emitted out) /\
  objects (final out) = objects s.
Proof.
  cbv zeta. unfold propagate_receipts.
  erewrite run_bind_Ok by reflexivity. cbn [res final emitted app].
  destruct (collect_wait_for_receipts w3 (transactions block_fields) s)
    as (waited & Ha & He & Ho).
  set (fetched := collect _ (transactions block_fields) s) in *.
  destruct (res fetched) as [web3_receipts | e] eqn:Hfetched.
  - rewrite (run_bind_Ok _ _ _ (eq_trans (outcome_eta fetched)
              (f_equal (fun r => Build_outcome r _ _) Hfetched))).
    erewrite run_bind_Ok by reflexivity.
    cbn [res final emitted app].
    destruct (encode_receipts_content web3_receipts chain_id
                (hash block_fields) (number block_fields)
                (receiptsRoot block_fields))
      as [[content_key content_value] | e] eqn:Hcontent.
    + erewrite run_bind_Ok by reflexivity.
      cbn [res final emitted app].
      destruct (push_history_run portal_inserter content_key content_value
                  (final fetched)) as (tried & r & Hp & Hr & Hev & Hobj).
      rewrite Hr, Hev, Hobj, He, Ho. split; [ | reflexivity ].
      rewrite Ho in Hp.
      apply receipts_pushed with (web3_receipts := web3_receipts);
        assumption.
    + erewrite run_bind_Raise by reflexivity.
      cbn [res final emitted]. rewrite He, Ho. split; [ | reflexivity ].
      apply receipts_rejected with (web3_receipts := web3_receipts);
        assumption.
  - rewrite (run_bind_Raise _ _ _ (eq_trans (outcome_eta fetched)
              (f_equal (fun r => Build_outcome r _ _) Hfetched))).
    cbn [res final emitted]. rewrite He, Ho. split; [ | reflexivity ].
    apply receipts_wait_raised. exact Ha.
Qed.

Lemma handle_new_header_run (w3 : Web3) (portal_inserter : ref)
    (header_hash : bytes) (chain_id : Z) (s : state) :
  let out := handle_new_header w3 portal_inserter header_hash chain_id s in
  notification_run (_web3_links (objects s portal_inserter)) w3 chain_id
    header_hash (res out) (emitted out) /\
  objects (final out) = objects s /\
  hd_error (emitted out)
    = Some (GetBlock w3 header_hash false
              (fst (get_block w3 header_hash false (world s)))).
Proof.
  cbv zeta. unfold handle_new_header.
  destruct (propagate_header_run w3 portal_inserter chain_id header_hash s)
    as (Hrun & Hobj & Hhd).
  set (header := propagate_header w3 portal_inserter chain_id header_hash s) in *.
  destruct (res header) as [block_fields | e] eqn:Hres.
  - rewrite (run_bind_Ok _ _ _ (eq_trans (outcome_eta header)
              (f_equal (fun r => Build_outcome r _ _) Hres))).
    cbn [res final emitted].
    destruct (propagate_receipts_run w3 portal_inserter chain_id block_fields
                (final header)) as (Hrun' & Hobj').
    rewrite Hobj in Hrun'. rewrite Hobj', Hobj.
    repeat split.
    + apply notification_receipts with (block_fields := block_fields);
        assumption.
    + destruct (emitted header); [ discriminate | exact Hhd ].
  - rewrite (run_bind_Raise _ _ _ (eq_trans (outcome_eta header)
              (f_equal (fun r => Build_outcome r _ _) Hres))).
    cbn [res final emitted]. repeat split; auto.
    apply notification_header_failed. exact Hrun.
Qed.

(** ** The two encoders *)

Lemma block_fields_to_content_cases (block_fields : block) (chain_id : Z) :
  match block_fields_to_header block_fields with
  | Raise e => block_fields_to_content block_fields chain_id = Raise e
  | Ok header =>
      (keccak (rlp_encode header) <> hash block_fields /\
       block_fields_to_content block_fields chain_id
         = Raise (header_encoding_error block_fields header)) \/
      (keccak (rlp_encode header) = hash block_fields /\
       BlockHeader_hash header <> hash block_fields /\
       block_fields_to_content block_fields chain_id
         = Raise (header_hash_error block_fields header)) \/
      (keccak (rlp_encode header) = hash block_fields /\
       BlockHeader_hash header = hash block_fields /\
       block_fields_to_content block_fields chain_id
         = Ok (header_content_key (hash block_fields) chain_id,
               rlp_encode header))
  end.
Proof.
  unfold block_fields_to_content.
  destruct (block_fields_to_header block_fields) as [header | e];
    cbn [bind Monad_result]; [ | reflexivity ].
  destruct (bytes_ne (keccak (rlp_encode header)) (hash block_fields)) eqn:H1.
  - left. apply bytes_ne_true in H1. auto.
  - apply bytes_ne_false in H1. right.
    destruct (bytes_ne (BlockHeader_hash header) (hash block_fields)) eqn:H2.
    + left. apply bytes_ne_true in H2. auto.
    + right. apply bytes_ne_false in H2. auto.
Qed.

Lemma encode_receipts_content_cases (web3_receipts : list Web3Receipt)
    (chain_id : Z) (header_hash : bytes) (block_number : Z)
    (receipt_root : bytes) :
  match comprehension
          (fun receipt => receipt_fields_to_receipt receipt block_number)
          web3_receipts with
  | Raise e =>
      encode_receipts_content web3_receipts chain_id header_hash block_number
        receipt_root = Raise e
  | Ok receipts =>
      (fst (make_trie_root_and_nodes receipts) <> receipt_root /\
       encode_receipts_content web3_receipts chain_id header_hash block_number
         receipt_root = Raise (receipts_root_error header_hash)) \/
      (fst (make_trie_root_and_nodes receipts) = receipt_root /\
       encode_receipts_content web3_receipts chain_id header_hash block_number
         receipt_root
         = Ok (receipt_content_key header_hash chain_id,
               receipt_content_value receipts))
  end.
Proof.
  unfold encode_receipts_content.
  destruct (comprehension _ web3_receipts) as [receipts | e];
    cbn [bind Monad_result]; [ | reflexivity ].
  destruct (make_trie_root_and_nodes receipts) as [calculated_root nodes].
  cbn [fst].
  destruct (bytes_ne calculated_root receipt_root) eqn:H.
  - left. apply bytes_ne_true in H. auto.
  - right. apply bytes_ne_false in H. auto.
Qed.

(** ** Reading the events of a run *)

Lemma push_history_calls_app (t t' : list event) :
  push_history_calls (t ++ t') = push_history_calls t ++ push_history_calls t'.
Proof.
  induction t as [| ev t IH]; [ reflexivity | ].
  cbn [app push_history_calls]. rewrite IH.
  destruct (push_history_line ev); reflexivity.
Qed.

Lemma store_requests_app (t t' : list event) :
  store_requests (t ++ t') = store_requests t ++ store_requests t'.
Proof.
  induction t as [| ev t IH]; [ reflexivity | ].
  cbn [app store_requests]. rewrite IH. destruct ev; reflexivity.
Qed.

Lemma receipt_waits_app (t t' : list event) :
  receipt_waits (t ++ t') = receipt_waits t ++ receipt_waits t'.
Proof.
  induction t as [| ev t IH]; [ reflexivity | ].
  cbn [app receipt_waits]. rewrite IH. destruct ev; reflexivity.
Qed.

Lemma fetched_receipts_app (t t' : list event) :
  fetched_receipts (t ++ t') = fetched_receipts t ++ fetched_receipts t'.
Proof.
  induction t as [| ev t IH]; [ reflexivity | ].
  cbn [app fetched_receipts]. rewrite IH.
  destruct ev as [| | ? ? ? [] |]; reflexivity.
Qed.

Lemma push_events_calls content_key content_value tried :
  push_history_calls (push_events content_key content_value tried)
  = [(encode_hex content_key, encode_hex content_value)].
Proof.
  unfold push_events. cbn. f_equal.
  induction tried as [| p tried IH]; [ reflexivity | exact IH ].
Qed.

Lemma push_events_requests content_key content_value tried :
  store_requests (push_events content_key content_value tried)
  = map (store_request content_key content_value) (map fst tried).
Proof.
  unfold push_events. cbn [store_requests].
  induction tried as [| p tried IH]; [ reflexivity | ].
  cbn [map store_requests]. rewrite IH. reflexivity.
Qed.

Lemma push_events_waits content_key content_value tried :
  receipt_waits (push_events content_key content_value tried) = [].
Proof.
  unfold push_events. cbn [receipt_waits].
  induction tried as [| p tried IH]; [ reflexivity | exact IH ].
Qed.

Lemma push_events_fetched content_key content_value tried :
  fetched_receipts (push_events content_key content_value tried) = [].
Proof.
  unfold push_events. cbn [fetched_receipts].
  induction tried as [| p tried IH]; [ reflexivity | exact IH ].
Qed.

Lemma wait_events_waits w3 waited :
  receipt_waits (wait_events w3 waited)
  = map (receipt_request w3) (map fst waited).
Proof.
  induction waited as [| p waited IH]; [ reflexivity | ].
  cbn [wait_events map receipt_waits]. f_equal. exact IH.
Qed.

Lemma wait_events_calls w3 waited :
  push_history_calls (wait_events w3 waited) = [].
Proof.
  induction waited as [| p waited IH]; [ reflexivity | exact IH ].
Qed.

Lemma wait_events_requests w3 waited :
  store_requests (wait_events w3 waited) = [].
Proof.
  induction waited as [| p waited IH]; [ reflexivity | exact IH ].
Qed.

Lemma wait_events_fetched w3 txn_hashes waited web3_receipts :
  attempts txn_hashes waited (Ok web3_receipts) ->
  fetched_receipts (wait_events w3 waited) = web3_receipts.
Proof.
  intros H. apply attempts_Ok in H. destruct H as [_ H].
  revert web3_receipts H.
  induction waited as [| [txn_hash r] waited IH]; intros [| receipt rest] H;
    try discriminate; [ reflexivity | ].
  cbn [map snd] in H. inversion H; subst.
  cbn [wait_events map fetched_receipts fst snd].
  f_equal. apply IH. assumption.
Qed.

Lemma attempts_none_raised {A R} (xs : list A) (tried : list (A * result R)) out :
  attempts xs tried out ->
  Forall (fun p => forall e, snd p <> Raise e) tried ->
  map fst tried = xs /\ exists rs, out = Ok rs.
Proof.
  induction 1 as [| x xs e | x xs r tried out H IH]; intros Hall.
  - split; [ reflexivity | eauto ].
  - inversion Hall as [| p l Hp Hl]; subst. exfalso. apply (Hp e). reflexivity.
  - inversion Hall as [| p l Hp Hl]; subst.
    destruct (IH Hl) as [Hfst [rs ->]].
    cbn [map fst]. split; [ congruence | eexists; reflexivity ].
Qed.

Lemma push_events_none_raised content_key content_value tried :
  Forall (fun ev => raised ev = false)
    (push_events content_key content_value tried) ->
  Forall (fun p : Web3 * result Response => forall e, snd p <> Raise e) tried.
Proof.
  unfold push_events. intros H. inversion H as [| ev l _ Hl]; subst. clear H.
  induction tried as [| [w3 r] tried IH]; [ constructor | ].
  cbn [map fst snd] in Hl. inversion Hl as [| ev l Hev Hrest]; subst.
  constructor; [ | apply IH; assumption ].
  cbn [snd]. intros e ->. discriminate.
Qed.

Lemma wait_events_none_raised w3 waited :
  Forall (fun ev => raised ev = false) (wait_events w3 waited) ->
  Forall (fun p : bytes * result Web3Receipt => forall e, snd p <> Raise e) waited.
Proof.
  induction waited as [| [txn_hash r] waited IH]; intros H; [ constructor | ].
  cbn [wait_events map fst snd] in H. inversion H as [| ev l Hev Hrest]; subst.
  constructor; [ | apply IH; assumption ].
  cbn [snd]. intros e ->. discriminate.
Qed.

Lemma quiet_Forall (t : list event) :
  quiet t = true <-> Forall (fun ev => raised ev = false) t.
Proof.
  unfold quiet. rewrite forallb_forall, Forall_forall.
  split; intros H ev Hin; specialize (H ev Hin);
    destruct (raised ev); auto; discriminate.
Qed.

Lemma receipts_collected_In (t : list event) :
  receipts_collected t = true <-> In (Print ["Collected receipts"]) t.
Proof.
  unfold receipts_collected. rewrite existsb_exists. split.
  - intros (ev & Hin & Hev).
    destruct ev as [[| line [| ? ?]] | | |]; try discriminate.
    apply String.eqb_eq in Hev. subst. exact Hin.
  - intros Hin. eexists. split; [ exact Hin | reflexivity ].
Qed.

Lemma raised_requests_In (t : list event) (w3 : Web3) (e : exception) :
  In (w3, e) (raised_requests t) ->
  exists method params, In (MakeRequest w3 method params (Raise e)) t.
Proof.
  induction t as [| ev t IH]; [ intros [] | ].
  destruct ev as [args | ? ? ? r | ? ? ? r | w3' method params [r | e']];
    cbn [raised_requests]; intros Hin;
    try (destruct (IH Hin) as (m & p & H); exists m, p; right; exact H).
  destruct Hin as [Hin | Hin].
  - inversion Hin; subst. exists method, params. left. reflexivity.
  - destruct (IH Hin) as (m & p & H). exists m, p. right. exact H.
Qed.

Lemma wait_events_raised_waits w3
    (waited : list (bytes * result Web3Receipt)) :
  Forall (fun p => exists r, snd p = Ok r) waited ->
  raised_waits (wait_events w3 waited) = [].
Proof.
  induction 1 as [| [txn_hash r] waited [r' Hr] _ IH]; [ reflexivity | ].
  cbn [snd] in Hr. subst. exact IH.
Qed.

Lemma push_events_raised_waits content_key content_value tried :
  raised_waits (push_events content_key content_value tried) = [].
Proof.
  unfold push_events. cbn [raised_waits].
  induction tried as [| p tried IH]; [ reflexivity | exact IH ].
Qed.

Lemma raised_waits_app (t t' : list event) :
  raised_waits (t ++ t') = raised_waits t ++ raised_waits t'.
Proof.
  induction t as [| ev t IH]; [ reflexivity | ].
  cbn [app raised_waits]. rewrite IH.
  destruct ev as [| | ? ? ? [] |]; reflexivity.
Qed.

(** ** Runs in which every call returned *)

Lemma quiet_app (t t' : list event) :
  quiet (t ++ t') = quiet t && quiet t'.
Proof. apply forallb_app. Qed.

Lemma quiet_app_r (t t' : list event) :
  quiet (t ++ t') = true -> quiet t' = true.
Proof.
  rewrite quiet_app. intros H. apply andb_true_iff in H. tauto.
Qed.

Lemma quiet_tail (ev : event) (t : list event) :
  quiet (ev :: t) = true -> quiet t = true.
Proof.
  apply (quiet_app_r [ev] t).
Qed.

Lemma attempts_Ok_all {A R} (xs : list A) (tried : list (A * result R)) rs :
  attempts xs tried (Ok rs) ->
  Forall (fun p => exists r, snd p = Ok r) tried.
Proof.
  intros H. apply attempts_Ok in H. destruct H as [_ Hsnd].
  apply Forall_forall. intros p Hin.
  apply (in_map snd) in Hin. rewrite Hsnd in Hin.
  apply in_map_iff in Hin. destruct Hin as (r & Hr & _). eauto.
Qed.

Lemma push_events_app content_key content_value tried tried' :
  push_events content_key content_value (tried ++ tried')
  = push_events content_key content_value tried
    ++ map (fun p => MakeRequest (fst p) "portal_historyStore"
                       [encode_hex content_key; encode_hex content_value]
                       (snd p)) tried'.
Proof.
  unfold push_events. rewrite map_app. reflexivity.
Qed.

Lemma push_events_all_returned content_key content_value
    (tried : list (Web3 * result Response)) :
  Forall (fun p => exists r, snd p = Ok r) tried ->
  quiet (push_events content_key content_value tried) = true.
Proof.
  intros H. unfold push_events, quiet. cbn [forallb raised negb andb].
  induction H as [| [w3 r] tried [r' Hr] _ IH]; [ reflexivity | ].
  cbn [snd] in Hr. subst. cbn [map forallb fst snd raised negb andb]. exact IH.
Qed.

Lemma wait_events_all_returned w3
    (waited : list (bytes * result Web3Receipt)) :
  Forall (fun p => exists r, snd p = Ok r) waited ->
  quiet (wait_events w3 waited) = true.
Proof.
  intros H. unfold wait_events, quiet.
  induction H as [| [txn_hash r] waited [r' Hr] _ IH]; [ reflexivity | ].
  cbn [snd] in Hr. subst. cbn [map forallb fst snd raised negb andb]. exact IH.
Qed.

(** ** PortalInserter.push_history *)

(** A [push_history] call prints its line and then goes through the
    collection: either every request returned, or the events end with the
    first request that raised. *)
Lemma push_history_outcome (self : ref) (content_key content_value : bytes)
    (s : state) :
  let out := push_history self content_key content_value s in
  let web3_links := _web3_links (objects s self) in
  exists tried,
    emitted out = push_events content_key content_value tried /\
    ((map fst tried = web3_links /\
      Forall (fun p => exists r, snd p = Ok r) tried /\
      res out = Ok tt) \/
     (exists before w3 after e,
        web3_links = map fst before ++ w3 :: after /\
        tried = before ++ [(w3, Raise e)] /\
        Forall (fun p => exists r, snd p = Ok r) before /\
        res out = Raise e)).
Proof.
  cbv zeta.
  destruct (push_history_run self content_key content_value s)
    as (tried & r & Ha & Hr & He & _).
  exists tried. split; [ exact He | ].
  destruct r as [rs | e]; cbn [bind ret Monad_result] in Hr.
  - left. destruct (attempts_Ok Ha) as [Hfst _].
    split; [ exact Hfst | ]. split; [ exact (attempts_Ok_all Ha) | exact Hr ].
  - right. destruct (attempts_Raise Ha) as (before & w3 & after & Hl & Ht & Hall).
    exists before, w3, after, e. auto.
Qed.

(** C6, as amended: [push_history] sends the same store request to the
    nodes of [_web3_links] in the order of that collection, skipping none,
    up to and including the first node whose request raises.  Either no
    request raised, every node of the collection was sent the pair and the
    call returns; or the collection is [before ++ w3 :: after], every
    request to a node of [before] returned, the request to [w3] raised and
    is the last event of the call, no node of [after] was sent anything,
    and the call raises that exception. *)
Theorem push_history_sends_in_order (self : ref)
    (content_key content_value : bytes) (s : state) :
  let out := push_history self content_key content_value s in
  let web3_links := _web3_links (objects s self) in
  let request := store_request content_key content_value in
  (quiet (emitted out) = true /\
   store_requests (emitted out) = map request web3_links /\
   res out = Ok tt) \/
  (exists before w3 after e sent,
     web3_links = before ++ w3 :: after /\
     emitted out
     = sent ++ [MakeRequest w3 "portal_historyStore"
                  [encode_hex content_key; encode_hex content_value]
                  (Raise e)] /\
     quiet sent = true /\
     store_requests sent = map request before /\
     store_requests (emitted out) = map request (before ++ [w3]) /\
     res out = Raise e).
Proof.
  cbv zeta.
  destruct (push_history_outcome self content_key content_value s)
    as (tried & He & [(Hfst & Hall & Hres)
                     | (before & w3 & after & e & Hl & Ht & Hall & Hres)]).
  - left. rewrite He, push_events_requests, Hfst.
    split; [ apply push_events_all_returned; exact Hall | auto ].
  - right.
    exists (map fst before), w3, after, e,
           (push_events content_key content_value before).
    split; [ exact Hl | ].
    split; [ rewrite He, Ht, push_events_app; reflexivity | ].
    split; [ apply push_events_all_returned; exact Hall | ].
    split; [ apply push_events_requests | ].
    split; [ | exact Hres ].
    rewrite He, Ht, push_events_requests, map_app. reflexivity.
Qed.

(** C4, as amended: when a store request of a [push_history] call raises,
    the call raises that same exception, and the requests made are those
    for the nodes up to and including the one that raised: no request is
    made for the nodes after it. *)
Theorem push_history_stops_at_first_failure (self : ref)
    (content_key content_value : bytes) (s : state) (w3 : Web3)
    (e : exception) :
  let out := push_history self content_key content_value s in
  In (w3, e) (raised_requests (emitted out)) ->
  res out = Raise e /\
  exists before after,
    _web3_links (objects s self) = before ++ w3 :: after /\
    store_requests (emitted out)
    = map (store_request content_key content_value) (before ++ [w3]).
Proof.
  cbv zeta.
  destruct (push_history_run self content_key content_value s)
    as (tried & r & Ha & Hr & He & _).
  rewrite He, Hr, push_events_requests. unfold push_events.
  intros Hin. apply raised_requests_In in Hin.
  destruct Hin as (method & params & [Hin | Hin]); [ discriminate | ].
  apply in_map_iff in Hin. destruct Hin as ([x rx] & Hev & Hin).
  cbn [fst snd] in Hev. inversion Hev; subst. clear Hev.
  destruct r as [rs | e'].
  - apply attempts_Ok in Ha. destruct Ha as [_ Hsnd].
    apply (in_map snd) in Hin. rewrite Hsnd in Hin. cbn [snd] in Hin.
    apply in_map_iff in Hin. destruct Hin as (r & Habs & _). discriminate.
  - apply attempts_Raise in Ha.
    destruct Ha as (before & x & after & Hlinks & -> & Hall).
    apply in_app_or in Hin. destruct Hin as [Hin | [Hin | []]].
    + rewrite Forall_forall in Hall. destruct (Hall _ Hin) as (r & Habs).
      discriminate.
    + inversion Hin; subst. split; [ reflexivity | ].
      exists (map fst before), after. split; [ exact Hlinks | ].
      rewrite map_app. reflexivity.
Qed.

(** C8, as amended: after its line, the events of a [push_history] call
    are store requests only, each of method [portal_historyStore] with the
    two parameters [encode_hex content_key] and [encode_hex content_value]:
    the same pair of hex strings in every request.  When every request
    returns, the nodes addressed are those of [_web3_links], each once and
    in order, and the call returns; otherwise the requests end with the
    first one that raises, the nodes behind it are sent nothing, and the
    call raises that exception. *)
Theorem store_requests_carry_hex_pair (self : ref)
    (content_key content_value : bytes) (s : state) :
  let out := push_history self content_key content_value s in
  let web3_links := _web3_links (objects s self) in
  let pair := [encode_hex content_key; encode_hex content_value] in
  exists tried : list (Web3 * result Response),
    emitted out
    = Print ["Propagate new history content with key, value:";
             encode_hex content_key; ","; encode_hex content_value]
      :: map (fun p => MakeRequest (fst p) "portal_historyStore" pair (snd p))
             tried /\
    store_requests (emitted out)
    = map (fun w3 => (w3, "portal_historyStore", pair)) (map fst tried) /\
    ((map fst tried = web3_links /\
      Forall (fun p => exists r, snd p = Ok r) tried /\
      res out = Ok tt) \/
     (exists before w3 after e,
        web3_links = map fst before ++ w3 :: after /\
        tried = before ++ [(w3, Raise e)] /\
        Forall (fun p => exists r, snd p = Ok r) before /\
        res out = Raise e)).
Proof.
  cbv zeta.
  destruct (push_history_outcome self content_key content_value s)
    as (tried & He & H).
  exists tried. split; [ exact He | ]. split; [ | exact H ].
  rewrite He. apply push_events_requests.
Qed.

(** C9: a [push_history] call leaves every object as it was, so
    [_web3_links] holds the same nodes in the same order afterwards, and so
    does a whole [handle_new_header] run; the attribute is what [__init__]
    stored. *)
Theorem push_history_keeps_web3_links :
  (forall self content_key content_value s,
     objects (final (push_history self content_key content_value s))
     = objects s) /\
  (forall w3 portal_inserter header_hash chain_id s,
     objects (final (handle_new_header w3 portal_inserter header_hash
                       chain_id s))
     = objects s) /\
  (forall self web3_links content_key content_value s,
     let constructed := final (PortalInserter__init__ self web3_links s) in
     _web3_links (objects constructed self) = web3_links /\
     _web3_links
       (objects (final (push_history self content_key content_value
                          constructed)) self)
     = web3_links).
Proof.
  assert (Hpush : forall self content_key content_value s,
            objects (final (push_history self content_key content_value s))
            = objects s).
  { intros self content_key content_value s.
    destruct (push_history_run self content_key content_value s)
      as (tried & r & _ & _ & _ & H). exact H. }
  split; [ exact Hpush | split ].
  - intros w3 portal_inserter header_hash chain_id s.
    apply (handle_new_header_run w3 portal_inserter header_hash chain_id s).
  - intros self web3_links content_key content_value s constructed.
    assert (H : _web3_links (objects constructed self) = web3_links).
    { unfold constructed, PortalInserter__init__, set_web3_links.
      cbn [final objects]. rewrite Nat.eqb_refl. reflexivity. }
    split; [ exact H | ]. rewrite Hpush. exact H.
Qed.

(** ** block_fields_to_content *)

(** C10: [block_fields_to_content] returns a key and value exactly when
    both the keccak of the RLP-encoded header and the header object's own
    hash equal the asserted hash; when the first matches and the second does
    not, it raises the ValidationError that names py-evm. *)
Theorem block_fields_to_content_needs_both_hashes (block_fields : block)
    (chain_id : Z) (header : BlockHeader) :
  block_fields_to_header block_fields = Ok header ->
  (keccak (rlp_encode header) = hash block_fields ->
   BlockHeader_hash header <> hash block_fields ->
   block_fields_to_content block_fields chain_id
   = Raise (header_hash_error block_fields header)) /\
  (forall content_key content_value,
     block_fields_to_content block_fields chain_id
     = Ok (content_key, content_value) <->
     keccak (rlp_encode header) = hash block_fields /\
     BlockHeader_hash header = hash block_fields /\
     content_key = header_content_key (hash block_fields) chain_id /\
     content_value = rlp_encode header).
Proof.
  intros Hheader.
  pose proof (block_fields_to_content_cases block_fields chain_id) as H.
  rewrite Hheader in H.
  destruct H as [[H1 H] | [[H1 [H2 H]] | [H1 [H2 H]]]]; rewrite H.
  - split; [ intros; contradiction | ].
    intros content_key content_value.
    split; [ discriminate | intros [? _]; contradiction ].
  - split; [ reflexivity | ].
    intros content_key content_value.
    split; [ discriminate | intros (_ & ? & _); contradiction ].
  - split; [ intros; contradiction | ].
    intros content_key content_value. split.
    + intros E. inversion E. auto.
    + intros (_ & _ & -> & ->). reflexivity.
Qed.

(** ** The cases of a notification *)

Lemma receipts_run_cases (web3_links : list Web3) (w3 : Web3) (chain_id : Z)
    (block_fields : block) (r : result unit) (t : list event) :
  receipts_run web3_links w3 chain_id block_fields r t ->
  exists waited fetched,
    attempts (transactions block_fields) waited fetched /\
    match fetched with
    | Raise e =>
        r = Raise e /\
        t = Print ["Collecting receipts to propagate..."]
            :: wait_events w3 waited
    | Ok web3_receipts =>
        match encode_receipts_content web3_receipts chain_id
                (hash block_fields) (number block_fields)
                (receiptsRoot block_fields) with
        | Raise e =>
            r = Raise e /\
            t = Print ["Collecting receipts to propagate..."]
                :: wait_events w3 waited ++ [Print ["Collected receipts"]]
        | Ok (content_key, content_value) =>
            exists tried pushed,
              attempts web3_links tried pushed /\
              r = (_ <- pushed ;; ret tt) /\
              t = Print ["Collecting receipts to propagate..."]
                  :: wait_events w3 waited
                  ++ Print ["Collected receipts"]
                  :: push_events content_key content_value tried
        end
    end.
Proof.
  intros H. destruct H as [waited e Ha | waited web3_receipts e Ha He
                          | waited web3_receipts k v tried out Ha He Hp].
  - exists waited, (Raise e). auto.
  - exists waited, (Ok web3_receipts). rewrite He. auto.
  - exists waited, (Ok web3_receipts). rewrite He.
    split; [ exact Ha | ]. exists tried, out. auto.
Qed.

Lemma handle_new_header_cases (w3 : Web3) (portal_inserter : ref)
    (header_hash : bytes) (chain_id : Z) (s : state) :
  let out := handle_new_header w3 portal_inserter header_hash chain_id s in
  let web3_links := _web3_links (objects s portal_inserter) in
  match fst (get_block w3 header_hash false (world s)) with
  | Raise e =>
      res out = Raise e /\
      emitted out = [GetBlock w3 header_hash false (Raise e)]
  | Ok block_fields =>
      match block_fields_to_content block_fields chain_id with
      | Raise e =>
          res out = Raise e /\
          emitted out = [GetBlock w3 header_hash false (Ok block_fields)]
      | Ok (content_key, content_value) =>
          exists tried pushed,
            attempts web3_links tried pushed /\
            match pushed with
            | Raise e =>
                res out = Raise e /\
                emitted out
                = GetBlock w3 header_hash false (Ok block_fields)
                  :: push_events content_key content_value tried
            | Ok _ =>
                exists t,
                  receipts_run web3_links w3 chain_id block_fields
                    (res out) t /\
                  emitted out
                  = (GetBlock w3 header_hash false (Ok block_fields)
                     :: push_events content_key content_value tried) ++ t
            end
      end
  end.
Proof.
  cbv zeta.
  destruct (handle_new_header_run w3 portal_inserter header_hash chain_id s)
    as (Hrun & _ & Hhd).
  set (out := handle_new_header w3 portal_inserter header_hash chain_id s) in *.
  set (fetched := fst (get_block w3 header_hash false (world s))) in *.
  assert (Hheader : forall r t,
    header_run (_web3_links (objects s portal_inserter)) w3 chain_id
      header_hash r t ->
    hd_error t = Some (GetBlock w3 header_hash false fetched) ->
    match fetched with
    | Raise e => r = Raise e /\ t = [GetBlock w3 header_hash false (Raise e)]
    | Ok block_fields =>
        match block_fields_to_content block_fields chain_id with
        | Raise e =>
            r = Raise e /\ t = [GetBlock w3 header_hash false (Ok block_fields)]
        | Ok (content_key, content_value) =>
            exists tried pushed,
              attempts (_web3_links (objects s portal_inserter)) tried pushed /\
              r = (_ <- pushed ;; ret block_fields) /\
              t = GetBlock w3 header_hash false (Ok block_fields)
                  :: push_events content_key content_value tried
        end
    end).
  { intros r t H Ht.
    destruct H as [e | block_fields e Hc | block_fields k v tried pushed Hc Ha];
      cbn [hd_error] in Ht; inversion Ht as [E]; clear Ht.
    - auto.
    - rewrite Hc. auto.
    - rewrite Hc. eauto. }
  destruct Hrun as [e t Hh | block_fields t r t' Hh Hr].
  - specialize (Hheader _ _ Hh Hhd).
    destruct fetched as [block_fields | e'];
      [ | destruct Hheader as [E ->]; inversion E; auto ].
    destruct (block_fields_to_content block_fields chain_id)
      as [[content_key content_value] | e'];
      [ | destruct Hheader as [E ->]; inversion E; auto ].
    destruct Hheader as (tried & pushed & Ha & Hres & Ht).
    exists tried, pushed. split; [ exact Ha | ].
    destruct pushed as [rs | e']; [ discriminate | ].
    inversion Hres; subst. auto.
  - assert (Hhd' : hd_error t = Some (GetBlock w3 header_hash false fetched)).
    { destruct t; [ inversion Hh | exact Hhd ]. }
    specialize (Hheader _ _ Hh Hhd').
    destruct fetched as [block_fields' | e']; [ | destruct Hheader; discriminate ].
    destruct (block_fields_to_content block_fields' chain_id)
      as [[content_key content_value] | e'];
      [ | destruct Hheader; discriminate ].
    destruct Hheader as (tried & pushed & Ha & Hres & Ht).
    exists tried, pushed. split; [ exact Ha | ].
    destruct pushed as [rs | e']; [ | discriminate ].
    inversion Hres; subst. exists t'. auto.
Qed.

(** The full shape of a run on a block whose header was accepted. *)
Lemma handle_new_header_accepted (w3 : Web3) (portal_inserter : ref)
    (header_hash : bytes) (chain_id : Z) (s : state) (block_fields : block)
    (content_key content_value : bytes) :
  let out := handle_new_header w3 portal_inserter header_hash chain_id s in
  let web3_links := _web3_links (objects s portal_inserter) in
  let fetch := GetBlock w3 header_hash false (Ok block_fields) in
  fst (get_block w3 header_hash false (world s)) = Ok block_fields ->
  block_fields_to_content block_fields chain_id
    = Ok (content_key, content_value) ->
  exists tried pushed,
    attempts web3_links tried pushed /\
    match pushed with
    | Raise e =>
        res out = Raise e /\
        emitted out = fetch :: push_events content_key content_value tried
    | Ok _ =>
        exists waited fetched,
          attempts (transactions block_fields) waited fetched /\
          match fetched with
          | Raise e =>
              res out = Raise e /\
              emitted out
              = fetch :: push_events content_key content_value tried
                ++ Print ["Collecting receipts to propagate..."]
                :: wait_events w3 waited
          | Ok web3_receipts =>
              match encode_receipts_content web3_receipts chain_id
                      (hash block_fields) (number block_fields)
                      (receiptsRoot block_fields) with
              | Raise e =>
                  res out = Raise e /\
                  emitted out
                  = fetch :: push_events content_key content_value tried
                    ++ Print ["Collecting receipts to propagate..."]
                    :: wait_events w3 waited
                    ++ [Print ["Collected receipts"]]
              | Ok (receipts_key, receipts_value) =>
                  exists tried' pushed',
                    attempts web3_links tried' pushed' /\
                    res out = (_ <- pushed' ;; ret tt) /\
                    emitted out
                    = fetch :: push_events content_key content_value tried
                      ++ Print ["Collecting receipts to propagate..."]
                      :: wait_events w3 waited
                      ++ Print ["Collected receipts"]
                      :: push_events receipts_key receipts_value tried'
              end
          end
    end.
Proof.
  cbv zeta. intros Hfetched Hcontent.
  pose proof (handle_new_header_cases w3 portal_inserter header_hash chain_id s)
    as H. cbv zeta in H. rewrite Hfetched, Hcontent in H.
  destruct H as (tried & pushed & Ha & H). exists tried, pushed.
  split; [ exact Ha | ].
  destruct pushed as [rs | e]; [ | exact H ].
  destruct H as (t & Hrun & ->).
  apply receipts_run_cases in Hrun.
  destruct Hrun as (waited & fetched & Hw & Hrun).
  exists waited, fetched. split; [ exact Hw | ].
  destruct fetched as [web3_receipts | e].
  - destruct (encode_receipts_content web3_receipts chain_id
                (hash block_fields) (number block_fields)
                (receiptsRoot block_fields)) as [[k v] | e].
    + destruct Hrun as (tried' & pushed' & Hp & Hres & ->).
      exists tried', pushed'. auto.
    + destruct Hrun as (Hres & ->). auto.
  - destruct Hrun as (Hres & ->). auto.
Qed.

Ltac read_events :=
  repeat first
    [ rewrite push_history_calls_app | rewrite store_requests_app
    | rewrite receipt_waits_app | rewrite fetched_receipts_app
    | rewrite push_events_calls | rewrite push_events_requests
    | rewrite push_events_waits | rewrite push_events_fetched
    | rewrite wait_events_waits | rewrite wait_events_calls
    | rewrite wait_events_requests
    | progress cbn [push_history_calls push_history_line store_requests
                    receipt_waits fetched_receipts app] ].

Ltac read_events_in H :=
  repeat first
    [ rewrite push_history_calls_app in H | rewrite store_requests_app in H
    | rewrite receipt_waits_app in H | rewrite fetched_receipts_app in H
    | rewrite push_events_calls in H | rewrite push_events_requests in H
    | rewrite push_events_waits in H | rewrite push_events_fetched in H
    | rewrite wait_events_waits in H | rewrite wait_events_calls in H
    | rewrite wait_events_requests in H
    | progress cbn [push_history_calls push_history_line store_requests
                    receipt_waits fetched_receipts app] in H ].

(** ** handle_new_header: the header *)

(** C1: in a run of [handle_new_header], a [push_history] call or a store
    request happens only if the block the provider returned decodes to a
    header whose RLP encoding hashes (keccak) to the asserted block hash;
    when the recomputed hash differs, [block_fields_to_content] raises
    ValidationError, so does the run, and the run has emitted nothing but
    the block fetch: no [push_history] call, no store request. *)
Theorem header_pushed_only_if_hash_matches (w3 : Web3) (portal_inserter : ref)
    (header_hash : bytes) (chain_id : Z) (s : state) :
  let out := handle_new_header w3 portal_inserter header_hash chain_id s in
  let fetched := fst (get_block w3 header_hash false (world s)) in
  (push_history_calls (emitted out) <> [] \/ store_requests (emitted out) <> [] ->
   exists block_fields header,
     fetched = Ok block_fields /\
     block_fields_to_header block_fields = Ok header /\
     keccak (rlp_encode header) = hash block_fields) /\
  (forall block_fields header,
     fetched = Ok block_fields ->
     block_fields_to_header block_fields = Ok header ->
     keccak (rlp_encode header) <> hash block_fields ->
     block_fields_to_content block_fields chain_id
       = Raise (header_encoding_error block_fields header) /\
     res out = Raise (header_encoding_error block_fields header) /\
     emitted out = [GetBlock w3 header_hash false (Ok block_fields)] /\
     push_history_calls (emitted out) = [] /\
     store_requests (emitted out) = []).
Proof.
  cbv zeta.
  pose proof (handle_new_header_cases w3 portal_inserter header_hash chain_id s)
    as H. cbv zeta in H.
  destruct (fst (get_block w3 header_hash false (world s)))
    as [block_fields | e].
  - pose proof (block_fields_to_content_cases block_fields chain_id) as Hc.
    split.
    + intros Hpush.
      destruct (block_fields_to_header block_fields) as [header | e]
        eqn:Hheader.
      * destruct Hc as [[_ Hc] | [(_ & _ & Hc) | (Hk & _ & _)]].
        -- rewrite Hc in H. destruct H as [_ Ht]. rewrite Ht in Hpush.
           cbn in Hpush. destruct Hpush as [[] | []]; reflexivity.
        -- rewrite Hc in H. destruct H as [_ Ht]. rewrite Ht in Hpush.
           cbn in Hpush. destruct Hpush as [[] | []]; reflexivity.
        -- exists block_fields, header. auto.
      * rewrite Hc in H. destruct H as [_ Ht]. rewrite Ht in Hpush.
        cbn in Hpush. destruct Hpush as [[] | []]; reflexivity.
    + intros block_fields' header E Hheader Hne. inversion E; subst.
      rewrite Hheader in Hc.
      destruct Hc as [[_ Hc] | [(Hk & _) | (Hk & _)]];
        try contradiction.
      rewrite Hc in H. destruct H as [Hres Ht]. rewrite Ht.
      repeat split; assumption.
  - split.
    + destruct H as [_ Ht]. rewrite Ht. cbn.
      intros [[] | []]; reflexivity.
    + intros block_fields header E. discriminate.
Qed.

(** ** handle_new_header: the whole notification *)

(** C5, as amended: when the block the provider returns decodes to a header
    whose RLP encoding hashes to the asserted hash, no call to the provider
    or to a node raises, and the receipts fetched decode to receipts whose
    trie root is the header's receiptsRoot, then [handle_new_header]
    returns normally after exactly two [push_history] calls, the header key
    and value first and the receipts key and value second, each sent to
    every node.  The header object is taken to report, as its [hash]
    property, the keccak of its RLP encoding, which is how py-evm defines
    that property; the second check of [block_fields_to_content] then
    passes whenever the first does. *)
Theorem handle_new_header_pushes_header_then_receipts (w3 : Web3)
    (portal_inserter : ref) (header_hash : bytes) (chain_id : Z) (s : state)
    (block_fields : block) (header : BlockHeader) (receipts : list Receipt) :
  let out := handle_new_header w3 portal_inserter header_hash chain_id s in
  let web3_links := _web3_links (objects s portal_inserter) in
  let header_key := header_content_key (hash block_fields) chain_id in
  let receipts_key := receipt_content_key (hash block_fields) chain_id in
  let receipts_value := receipt_content_value receipts in
  fst (get_block w3 header_hash false (world s)) = Ok block_fields ->
  block_fields_to_header block_fields = Ok header ->
  keccak (rlp_encode header) = hash block_fields ->
  BlockHeader_hash header = keccak (rlp_encode header) ->
  quiet (emitted out) = true ->
  comprehension
    (fun receipt => receipt_fields_to_receipt receipt (number block_fields))
    (fetched_receipts (emitted out)) = Ok receipts ->
  fst (make_trie_root_and_nodes receipts) = receiptsRoot block_fields ->
  res out = Ok tt /\
  push_history_calls (emitted out)
  = [(encode_hex header_key, encode_hex (rlp_encode header));
     (encode_hex receipts_key, encode_hex receipts_value)] /\
  store_requests (emitted out)
  = map (store_request header_key (rlp_encode header)) web3_links
    ++ map (store_request receipts_key receipts_value) web3_links /\
  receipt_waits (emitted out)
  = map (receipt_request w3) (transactions block_fields).
Proof.
  cbv zeta. intros Hfetched Hheader Hkeccak Hhash Hquiet Hdecode Hroot.
  rewrite Hkeccak in Hhash. apply quiet_Forall in Hquiet.
  pose proof (handle_new_header_cases w3 portal_inserter header_hash chain_id s)
    as H. cbv zeta in H. rewrite Hfetched in H.
  pose proof (block_fields_to_content_cases block_fields chain_id) as Hc.
  rewrite Hheader in Hc.
  destruct Hc as [[? _] | [(_ & ? & _) | (_ & _ & Hc)]]; try contradiction.
  rewrite Hc in H. destruct H as (tried & pushed & Ha & H).
  destruct pushed as [rs | e].
  - destruct H as (t & Hrun & Ht). rewrite Ht in *.
    apply Forall_app in Hquiet. destruct Hquiet as [Hquiet1 Hquiet2].
    inversion Hquiet1 as [| ev l _ Hquiet1']; subst.
    apply attempts_Ok in Ha. destruct Ha as [Hlinks _].
    apply receipts_run_cases in Hrun.
    destruct Hrun as (waited & fetched & Hw & Hrun).
    destruct fetched as [web3_receipts | e].
    + assert (Hf : fetched_receipts t = web3_receipts).
      { destruct (encode_receipts_content web3_receipts chain_id
                    (hash block_fields) (number block_fields)
                    (receiptsRoot block_fields)) as [[k v] | e].
        - destruct Hrun as (tried' & pushed' & _ & _ & ->). read_events.
          rewrite (wait_events_fetched w3 Hw). apply app_nil_r.
        - destruct Hrun as (_ & ->). read_events.
          rewrite (wait_events_fetched w3 Hw). apply app_nil_r. }
      read_events_in Hdecode. rewrite Hf in Hdecode.
      pose proof (encode_receipts_content_cases web3_receipts chain_id
                    (hash block_fields) (number block_fields)
                    (receiptsRoot block_fields)) as He.
      rewrite Hdecode in He.
      destruct He as [[? _] | [_ He]]; try contradiction.
      rewrite He in Hrun.
      destruct Hrun as (tried' & pushed' & Hp & Hres & ->).
      inversion Hquiet2 as [| ev l _ Hq]; subst.
      apply Forall_app in Hq. destruct Hq as [_ Hq].
      inversion Hq as [| ev l _ Hq']; subst.
      apply push_events_none_raised in Hq'.
      destruct (attempts_none_raised Hp Hq') as [Hlinks' [rs' ->]].
      rewrite Hres. read_events.
      apply attempts_Ok in Hw. destruct Hw as [Hwaited _].
      rewrite Hlinks, Hlinks', Hwaited, app_nil_r. auto.
    + exfalso. destruct Hrun as (_ & ->).
      inversion Hquiet2 as [| ev l _ Hq]; subst.
      apply wait_events_none_raised in Hq.
      destruct (attempts_none_raised Hw Hq) as [_ [rs' Habs]]. discriminate.
  - exfalso. destruct H as (_ & Ht). rewrite Ht in Hquiet.
    inversion Hquiet as [| ev l _ Hq]; subst.
    apply push_events_none_raised in Hq.
    destruct (attempts_none_raised Ha Hq) as [_ [rs' Habs]]. discriminate.
Qed.

(** ** handle_new_header: the receipts *)

Lemma collected_not_in_push_events content_key content_value tried :
  ~ In (Print ["Collected receipts"])
       (push_events content_key content_value tried).
Proof.
  unfold push_events. intros [H | H]; [ discriminate | ].
  apply in_map_iff in H. destruct H as (p & H & _). discriminate.
Qed.

Lemma collected_not_in_wait_events w3 waited :
  ~ In (Print ["Collected receipts"]) (wait_events w3 waited).
Proof.
  unfold wait_events. intros H.
  apply in_map_iff in H. destruct H as (p & H & _). discriminate.
Qed.

(** C2: in a run of [handle_new_header] on a block the provider returned, a
    second [push_history] call (the receipts one) happens only if the
    receipts fetched decode to receipts whose trie root equals the header's
    receiptsRoot; when the receipts were all collected and their root
    differs, [encode_receipts_content] raises ValidationError, so does the
    run, and the only [push_history] call of the run is the header's, which
    by then has reached every node. *)
Theorem receipts_pushed_only_if_root_matches (w3 : Web3)
    (portal_inserter : ref) (header_hash : bytes) (chain_id : Z) (s : state)
    (block_fields : block) :
  let out := handle_new_header w3 portal_inserter header_hash chain_id s in
  let web3_links := _web3_links (objects s portal_inserter) in
  let decoded :=
    comprehension
      (fun receipt => receipt_fields_to_receipt receipt (number block_fields))
      (fetched_receipts (emitted out)) in
  fst (get_block w3 header_hash false (world s)) = Ok block_fields ->
  (forall call,
     nth_error (push_history_calls (emitted out)) 1 = Some call ->
     exists receipts,
       decoded = Ok receipts /\
       fst (make_trie_root_and_nodes receipts) = receiptsRoot block_fields /\
       call = (encode_hex (receipt_content_key (hash block_fields) chain_id),
               encode_hex (receipt_content_value receipts))) /\
  (forall receipts,
     receipts_collected (emitted out) = true ->
     decoded = Ok receipts ->
     fst (make_trie_root_and_nodes receipts) <> receiptsRoot block_fields ->
     encode_receipts_content (fetched_receipts (emitted out)) chain_id
       (hash block_fields) (number block_fields) (receiptsRoot block_fields)
       = Raise (receipts_root_error (hash block_fields)) /\
     res out = Raise (receipts_root_error (hash block_fields)) /\
     exists content_key content_value,
       block_fields_to_content block_fields chain_id
         = Ok (content_key, content_value) /\
       push_history_calls (emitted out)
         = [(encode_hex content_key, encode_hex content_value)] /\
       store_requests (emitted out)
         = map (store_request content_key content_value) web3_links).
Proof.
  cbv zeta. intros Hfetched.
  pose proof (handle_new_header_cases w3 portal_inserter header_hash chain_id s)
    as H. cbv zeta in H. rewrite Hfetched in H.
  destruct (block_fields_to_content block_fields chain_id)
    as [[content_key content_value] | e].
  - destruct H as (tried & pushed & Ha & H).
    destruct pushed as [rs | e].
    + destruct H as (t & Hrun & Ht). rewrite Ht.
      apply attempts_Ok in Ha. destruct Ha as [Hlinks _].
      apply receipts_run_cases in Hrun.
      destruct Hrun as (waited & fetched & Hw & Hrun).
      destruct fetched as [web3_receipts | e].
      * pose proof (encode_receipts_content_cases web3_receipts chain_id
                      (hash block_fields) (number block_fields)
                      (receiptsRoot block_fields)) as He.
        match goal with
        | |- context [fetched_receipts ?events] =>
            assert (Hf : fetched_receipts events = web3_receipts)
        end.
        { destruct (encode_receipts_content web3_receipts chain_id
                      (hash block_fields) (number block_fields)
                      (receiptsRoot block_fields)) as [[k v] | e].
          - destruct Hrun as (tried' & pushed' & _ & _ & ->). read_events.
            rewrite (wait_events_fetched w3 Hw). apply app_nil_r.
          - destruct Hrun as (_ & ->). read_events.
            rewrite (wait_events_fetched w3 Hw). apply app_nil_r. }
        rewrite Hf.
        destruct (comprehension _ web3_receipts) as [receipts | e].
        -- destruct He as [[Hne He] | [Heq He]]; rewrite He in Hrun.
           ++ destruct Hrun as (Hres & ->). split.
              ** intros call Hcall. read_events_in Hcall. discriminate.
              ** intros receipts' _ E _. inversion E; subst.
                 repeat split; [ exact He | exact Hres | ].
                 exists content_key, content_value.
                 split; [ reflexivity | ]. read_events.
                 rewrite Hlinks, app_nil_r. auto.
           ++ destruct Hrun as (tried' & pushed' & _ & _ & ->). split.
              ** intros call Hcall. read_events_in Hcall.
                 inversion Hcall; subst. exists receipts. auto.
              ** intros receipts' _ E Hne. inversion E; subst. contradiction.
        -- rewrite He in Hrun. destruct Hrun as (_ & ->). split.
           ++ intros call Hcall. read_events_in Hcall. discriminate.
           ++ intros receipts' _ E. discriminate.
      * destruct Hrun as (_ & ->). split.
        -- intros call Hcall. read_events_in Hcall. discriminate.
        -- intros receipts Hin. exfalso.
           apply receipts_collected_In in Hin. cbn [app] in Hin.
           destruct Hin as [Hin | Hin]; [ discriminate | ].
           apply in_app_or in Hin. destruct Hin as [Hin | Hin].
           ++ exact (collected_not_in_push_events Hin).
           ++ destruct Hin as [Hin | Hin]; [ discriminate | ].
              exact (@collected_not_in_wait_events _ _ Hin).
    + destruct H as (_ & ->). split.
      * intros call Hcall. read_events_in Hcall. discriminate.
      * intros receipts Hin. exfalso. apply receipts_collected_In in Hin.
        destruct Hin as [Hin | Hin]; [ discriminate | ].
        exact (collected_not_in_push_events Hin).
  - destruct H as (_ & ->). split.
    + intros call Hcall. discriminate.
    + intros receipts Hin. discriminate.
Qed.

(** C7, as amended: [propagate_receipts] first asks the provider for the
    receipt of each transaction hash of the block, in the order of the
    transaction list, each time with poll latency 2, and stops at the first
    request that raises.  Either every request returned: then there was
    one request per transaction hash, the second line follows them, the
    receipts returned are what is encoded, and the push comes after all of
    that, if the encoding did not raise.  Or the transaction list is
    [before ++ txn_hash :: after], the requests for [before] returned, the
    request for [txn_hash] raised and is the last event: no receipt of
    [after] is requested, nothing is encoded or pushed, and the exception
    leaves [propagate_receipts]. *)
Theorem propagate_receipts_waits_in_order (w3 : Web3) (portal_inserter : ref)
    (chain_id : Z) (block_fields : block) (s : state) :
  let out := propagate_receipts w3 portal_inserter chain_id block_fields s in
  let txn_hashes := transactions block_fields in
  (exists waited web3_receipts rest,
     map fst waited = txn_hashes /\
     map snd waited = map Ok web3_receipts /\
     emitted out
     = Print ["Collecting receipts to propagate..."]
       :: wait_events w3 waited ++ Print ["Collected receipts"] :: rest /\
     receipt_waits (emitted out) = map (receipt_request w3) txn_hashes /\
     raised_waits (emitted out) = [] /\
     match encode_receipts_content web3_receipts chain_id
             (hash block_fields) (number block_fields)
             (receiptsRoot block_fields) with
     | Raise e => rest = [] /\ res out = Raise e
     | Ok (content_key, content_value) =>
         exists tried, rest = push_events content_key content_value tried
     end) \/
  (exists before txn_hash after e,
     txn_hashes = map fst before ++ txn_hash :: after /\
     Forall (fun p => exists r, snd p = Ok r) before /\
     emitted out
     = Print ["Collecting receipts to propagate..."]
       :: wait_events w3 (before ++ [(txn_hash, Raise e)]) /\
     receipt_waits (emitted out)
     = map (receipt_request w3) (map fst before ++ [txn_hash]) /\
     raised_waits (emitted out) = [(txn_hash, e)] /\
     push_history_calls (emitted out) = [] /\
     store_requests (emitted out) = [] /\
     res out = Raise e).
Proof.
  cbv zeta.
  destruct (propagate_receipts_run w3 portal_inserter chain_id block_fields s)
    as [Hrun _].
  apply receipts_run_cases in Hrun.
  destruct Hrun as (waited & fetched & Hw & Hrun).
  destruct fetched as [web3_receipts | e].
  - left. destruct (attempts_Ok Hw) as [Hfst Hsnd].
    pose proof (wait_events_raised_waits w3 (attempts_Ok_all Hw)) as Hnone.
    exists waited, web3_receipts.
    destruct (encode_receipts_content web3_receipts chain_id
                (hash block_fields) (number block_fields)
                (receiptsRoot block_fields)) as [[k v] | e].
    + destruct Hrun as (tried & pushed & _ & _ & ->).
      exists (push_events k v tried).
      split; [ exact Hfst | ]. split; [ exact Hsnd | ].
      split; [ reflexivity | ].
      split; [ read_events; rewrite Hfst; apply app_nil_r | ].
      split; [ | exists tried; reflexivity ].
      cbn [raised_waits]. rewrite raised_waits_app, Hnone.
      cbn [app raised_waits]. apply push_events_raised_waits.
    + destruct Hrun as (Hres & ->). exists [].
      split; [ exact Hfst | ]. split; [ exact Hsnd | ].
      split; [ reflexivity | ].
      split; [ read_events; rewrite Hfst; apply app_nil_r | ].
      split; [ | auto ].
      cbn [raised_waits]. rewrite raised_waits_app, Hnone. reflexivity.
  - right. destruct Hrun as (Hres & ->).
    destruct (attempts_Raise Hw) as (before & txn_hash & after & Hl & -> & Hall).
    exists before, txn_hash, after, e.
    split; [ exact Hl | ]. split; [ exact Hall | ].
    split; [ reflexivity | ].
    split; [ read_events; rewrite map_app; reflexivity | ].
    split; [ | read_events; auto ].
    cbn [raised_waits]. unfold wait_events. rewrite map_app.
    rewrite raised_waits_app.
    fold (wait_events w3 before).
    rewrite (wait_events_raised_waits w3 Hall). reflexivity.
Qed.

(** ** handle_new_header: the order of the stages *)

Lemma push_events_are_pushes content_key content_value tried :
  forallb is_push_event (push_events content_key content_value tried) = true.
Proof.
  unfold push_events. cbn. induction tried as [| p tried IH]; [ reflexivity | ].
  exact IH.
Qed.

Lemma wait_events_are_fetches w3 waited :
  forallb is_receipt_fetch_event (wait_events w3 waited) = true.
Proof.
  induction waited as [| p waited IH]; [ reflexivity | exact IH ].
Qed.

Lemma pushes_fetch_nothing (t : list event) :
  forallb is_push_event t = true -> fetched_receipts t = [].
Proof.
  induction t as [| ev t IH]; [ reflexivity | ].
  cbn [forallb]. intros H. apply andb_true_iff in H. destruct H as [Hev Ht].
  destruct ev as [args | | ? ? ? r |]; try discriminate;
    cbn [fetched_receipts]; auto.
Qed.

Lemma push_events_raised content_key content_value
    (before : list (Web3 * result Response)) w3 e :
  quiet (push_events content_key content_value (before ++ [(w3, Raise e)]))
  = false.
Proof.
  rewrite push_events_app, quiet_app. apply andb_false_r.
Qed.

Lemma wait_events_raised w3 (before : list (bytes * result Web3Receipt))
    txn_hash e :
  quiet (wait_events w3 (before ++ [(txn_hash, Raise e)])) = false.
Proof.
  unfold wait_events. rewrite map_app, quiet_app. apply andb_false_r.
Qed.

Lemma wait_events_not_collected w3 waited :
  receipts_collected (wait_events w3 waited) = false.
Proof.
  induction waited as [| p waited IH]; [ reflexivity | exact IH ].
Qed.

(** C3: the events of a [handle_new_header] run are the header fetch, then
    events of the header push only, then events of the receipt collection
    only, then events of the receipts push only, and each stage runs
    exactly when the one before it has completed.  When the fetch raises,
    or the fetched block is not encoded and validated, the run raises that
    exception and no later stage starts.  Otherwise the header is pushed;
    the receipt collection starts exactly when the header push reached
    every node without raising; the receipts are encoded and validated
    exactly when every receipt request returned; and the receipts push
    runs exactly when that encoding and validation succeeded. *)
Theorem pipeline_stages_in_order (w3 : Web3) (portal_inserter : ref)
    (header_hash : bytes) (chain_id : Z) (s : state) :
  let out := handle_new_header w3 portal_inserter header_hash chain_id s in
  let web3_links := _web3_links (objects s portal_inserter) in
  let fetched := fst (get_block w3 header_hash false (world s)) in
  exists header_push receipts_fetch receipts_push,
    emitted out
    = GetBlock w3 header_hash false fetched
      :: header_push ++ receipts_fetch ++ receipts_push /\
    forallb is_push_event header_push = true /\
    forallb is_receipt_fetch_event receipts_fetch = true /\
    forallb is_push_event receipts_push = true /\
    match fetched with
    | Raise e =>
        res out = Raise e /\
        header_push = [] /\ receipts_fetch = [] /\ receipts_push = []
    | Ok block_fields =>
        match block_fields_to_content block_fields chain_id with
        | Raise e =>
            res out = Raise e /\
            header_push = [] /\ receipts_fetch = [] /\ receipts_push = []
        | Ok (content_key, content_value) =>
            push_history_calls header_push
            = [(encode_hex content_key, encode_hex content_value)] /\
            if quiet header_push then
              store_requests header_push
              = map (store_request content_key content_value) web3_links /\
              hd_error receipts_fetch
              = Some (Print ["Collecting receipts to propagate..."]) /\
              if quiet receipts_fetch then
                receipt_waits receipts_fetch
                = map (receipt_request w3) (transactions block_fields) /\
                receipts_collected receipts_fetch = true /\
                match encode_receipts_content
                        (fetched_receipts receipts_fetch) chain_id
                        (hash block_fields) (number block_fields)
                        (receiptsRoot block_fields) with
                | Raise e => res out = Raise e /\ receipts_push = []
                | Ok (receipts_key, receipts_value) =>
                    push_history_calls receipts_push
                    = [(encode_hex receipts_key, encode_hex receipts_value)] /\
                    if quiet receipts_push then
                      store_requests receipts_push
                      = map (store_request receipts_key receipts_value)
                          web3_links /\
                      res out = Ok tt
                    else exists e, res out = Raise e
                end
              else
                (exists e, res out = Raise e) /\
                receipts_collected receipts_fetch = false /\
                receipts_push = []
            else
              (exists e, res out = Raise e) /\
              receipts_fetch = [] /\ receipts_push = []
        end
    end.
Proof.
  cbv zeta.
  pose proof (handle_new_header_cases w3 portal_inserter header_hash chain_id s)
    as H. cbv zeta in H.
  pose proof (handle_new_header_accepted w3 portal_inserter header_hash
                chain_id s) as Hfull. cbv zeta in Hfull.
  destruct (fst (get_block w3 header_hash false (world s)))
    as [block_fields | e].
  - specialize (Hfull block_fields).
    destruct (block_fields_to_content block_fields chain_id)
      as [[content_key content_value] | e].
    + clear H.
      destruct (Hfull content_key content_value eq_refl eq_refl)
        as (tried & pushed & Ha & H). clear Hfull.
      exists (push_events content_key content_value tried).
      destruct pushed as [rs | e].
      * pose proof (push_events_all_returned content_key content_value
                      (attempts_Ok_all Ha)) as Hquiet.
        destruct (attempts_Ok Ha) as [Hlinks _].
        destruct H as (waited & fetched & Hw & H).
        destruct fetched as [web3_receipts | e].
        -- pose proof (wait_events_fetched w3 Hw) as Hf.
           pose proof (wait_events_all_returned w3 (attempts_Ok_all Hw))
             as Hquiet'.
           destruct (attempts_Ok Hw) as [Hwaited _].
           exists (Print ["Collecting receipts to propagate..."]
                   :: wait_events w3 waited ++ [Print ["Collected receipts"]]).
           assert (Hfetch :
             fetched_receipts
               (Print ["Collecting receipts to propagate..."]
                :: wait_events w3 waited ++ [Print ["Collected receipts"]])
             = web3_receipts).
           { read_events. rewrite Hf. apply app_nil_r. }
           assert (Hq :
             quiet
               (Print ["Collecting receipts to propagate..."]
                :: wait_events w3 waited ++ [Print ["Collected receipts"]])
             = true).
           { change (quiet (wait_events w3 waited
                            ++ [Print ["Collected receipts"]]) = true).
             rewrite quiet_app, Hquiet'. reflexivity. }
           rewrite Hfetch, Hq, Hquiet. clear Hfetch Hq.
           destruct (encode_receipts_content web3_receipts chain_id
                       (hash block_fields) (number block_fields)
                       (receiptsRoot block_fields)) as [[k v] | e].
           ++ destruct H as (tried' & pushed' & Hp & Hres & ->).
              exists (push_events k v tried').
              split; [ cbn [app]; rewrite <- app_assoc; reflexivity | ].
              split; [ apply push_events_are_pushes | ].
              split; [ cbn [forallb is_receipt_fetch_event String.eqb orb andb];
                       rewrite forallb_app, wait_events_are_fetches;
                       reflexivity | ].
              split; [ apply push_events_are_pushes | ].
              split; [ apply push_events_calls | ].
              split; [ rewrite push_events_requests, Hlinks; reflexivity | ].
              split; [ reflexivity | ].
              split; [ read_events; rewrite Hwaited; apply app_nil_r | ].
              split; [ apply receipts_collected_In; right; apply in_or_app;
                       right; left; reflexivity | ].
              split; [ apply push_events_calls | ].
              destruct pushed' as [rs' | e].
              ** rewrite (push_events_all_returned k v (attempts_Ok_all Hp)).
                 destruct (attempts_Ok Hp) as [Hlinks' _].
                 rewrite push_events_requests, Hlinks'. auto.
              ** destruct (attempts_Raise Hp)
                   as (before & x & after & _ & -> & _).
                 rewrite push_events_raised. exists e. exact Hres.
           ++ destruct H as (Hres & ->). exists [].
              split; [ cbn [app]; rewrite app_nil_r; reflexivity | ].
              split; [ apply push_events_are_pushes | ].
              split; [ cbn [forallb is_receipt_fetch_event String.eqb orb andb];
                       rewrite forallb_app, wait_events_are_fetches;
                       reflexivity | ].
              split; [ reflexivity | ].
              split; [ apply push_events_calls | ].
              split; [ rewrite push_events_requests, Hlinks; reflexivity | ].
              split; [ reflexivity | ].
              split; [ read_events; rewrite Hwaited; apply app_nil_r | ].
              split; [ apply receipts_collected_In; right; apply in_or_app;
                       right; left; reflexivity | auto ].
        -- destruct H as (Hres & ->).
           destruct (attempts_Raise Hw) as (before & x & after & _ & -> & _).
           exists (Print ["Collecting receipts to propagate..."]
                   :: wait_events w3 (before ++ [(x, Raise e)])), [].
           assert (Hq :
             quiet (Print ["Collecting receipts to propagate..."]
                    :: wait_events w3 (before ++ [(x, Raise e)])) = false).
           { change (quiet (wait_events w3 (before ++ [(x, Raise e)])) = false).
             apply wait_events_raised. }
           rewrite Hq, Hquiet. clear Hq.
           split; [ cbn [app]; rewrite app_nil_r; reflexivity | ].
           split; [ apply push_events_are_pushes | ].
           split; [ cbn [forallb is_receipt_fetch_event String.eqb orb andb];
                    apply wait_events_are_fetches | ].
           split; [ reflexivity | ].
           split; [ apply push_events_calls | ].
           split; [ rewrite push_events_requests, Hlinks; reflexivity | ].
           split; [ reflexivity | ].
           split; [ exists e; exact Hres | ].
           split; [ | reflexivity ].
           change (receipts_collected
                     (wait_events w3 (before ++ [(x, Raise e)])) = false).
           apply wait_events_not_collected.
      * destruct H as (Hres & ->).
        destruct (attempts_Raise Ha) as (before & x & after & _ & -> & _).
        exists [], []. rewrite push_events_raised.
        split; [ cbn [app]; rewrite app_nil_r; reflexivity | ].
        split; [ apply push_events_are_pushes | ].
        split; [ reflexivity | ]. split; [ reflexivity | ].
        split; [ apply push_events_calls | ].
        split; [ exists e; exact Hres | auto ].
    + destruct H as (Hres & ->). exists [], [], [].
      repeat (split; [ reflexivity | ]). auto.
  - destruct H as (Hres & ->). exists [], [], [].
    repeat (split; [ reflexivity | ]). auto.
Qed.

(** ** Beyond the pipeline claims *)

Lemma block_fields_to_content_Ok (block_fields : block) (chain_id : Z)
    (content_key content_value : bytes) :
  block_fields_to_content block_fields chain_id
    = Ok (content_key, content_value) ->
  exists header,
    block_fields_to_header block_fields = Ok header /\
    keccak (rlp_encode header) = hash block_fields /\
    BlockHeader_hash header = hash block_fields /\
    content_key = header_content_key (hash block_fields) chain_id /\
    content_value = rlp_encode header.
Proof.
  intros H.
  pose proof (block_fields_to_content_cases block_fields chain_id) as Hc.
  destruct (block_fields_to_header block_fields) as [header | e];
    [ | congruence ].
  destruct Hc as [[_ Hc] | [(_ & _ & Hc) | (H1 & H2 & Hc)]];
    rewrite Hc in H; try discriminate.
  inversion H; subst. exists header. auto.
Qed.

Lemma encode_receipts_content_Ok (web3_receipts : list Web3Receipt)
    (chain_id : Z) (header_hash : bytes) (block_number : Z)
    (receipt_root content_key content_value : bytes) :
  encode_receipts_content web3_receipts chain_id header_hash block_number
    receipt_root = Ok (content_key, content_value) ->
  exists receipts,
    comprehension
      (fun receipt => receipt_fields_to_receipt receipt block_number)
      web3_receipts = Ok receipts /\
    fst (make_trie_root_and_nodes receipts) = receipt_root /\
    content_key = receipt_content_key header_hash chain_id /\
    content_value = receipt_content_value receipts.
Proof.
  intros H.
  pose proof (encode_receipts_content_cases web3_receipts chain_id header_hash
                block_number receipt_root) as Hc.
  destruct (comprehension _ web3_receipts) as [receipts | e];
    [ | congruence ].
  destruct Hc as [[_ Hc] | [H1 Hc]]; rewrite Hc in H; try discriminate.
  inversion H; subst. exists receipts. auto.
Qed.

Ltac quiet_events :=
  repeat first
    [ rewrite quiet_app
    | progress change (quiet (?ev :: ?t)) with (negb (raised ev) && quiet t)
    | progress cbn [raised negb andb] ].

Ltac flatten_events :=
  repeat first [ rewrite <- app_assoc | rewrite <- app_comm_cons ].

(** X1: an exception from the provider or from a node is never swallowed or
    retried by [handle_new_header]: either no call of the run raised, or
    the call that raised is the last event of the run, every call before it
    returned, and the run raises that very exception. *)
Theorem raising_call_ends_handle_new_header (w3 : Web3)
    (portal_inserter : ref) (header_hash : bytes) (chain_id : Z) (s : state) :
  let out := handle_new_header w3 portal_inserter header_hash chain_id s in
  quiet (emitted out) = true \/
  exists t ev e,
    emitted out = t ++ [ev] /\
    quiet t = true /\
    exception_of ev = Some e /\
    res out = Raise e.
Proof.
  cbv zeta.
  pose proof (handle_new_header_cases w3 portal_inserter header_hash chain_id s)
    as H. cbv zeta in H.
  destruct (fst (get_block w3 header_hash false (world s)))
    as [block_fields | e] eqn:Hfetched.
  - destruct (block_fields_to_content block_fields chain_id)
      as [[content_key content_value] | e] eqn:Hcontent.
    + clear H.
      destruct (handle_new_header_accepted w3 portal_inserter header_hash
                  chain_id s Hfetched Hcontent)
        as (tried & pushed & Ha & H).
      destruct pushed as [rs | e].
      * pose proof (push_events_all_returned content_key content_value
                      (attempts_Ok_all Ha)) as Hq1.
        destruct H as (waited & fetched & Hw & H).
        destruct fetched as [web3_receipts | e].
        -- pose proof (wait_events_all_returned w3 (attempts_Ok_all Hw))
             as Hq2.
           destruct (encode_receipts_content web3_receipts chain_id
                       (hash block_fields) (number block_fields)
                       (receiptsRoot block_fields)) as [[k v] | e].
           ++ destruct H as (tried' & pushed' & Hp & Hres & Ht).
              destruct pushed' as [rs' | e].
              ** left. rewrite Ht. quiet_events.
                 rewrite Hq1, Hq2,
                   (push_events_all_returned k v (attempts_Ok_all Hp)).
                 reflexivity.
              ** right. apply attempts_Raise in Hp.
                 destruct Hp as (before & x & after & _ & -> & Hall).
                 rewrite push_events_app in Ht. cbn [map fst snd] in Ht.
                 exists (GetBlock w3 header_hash false (Ok block_fields)
                         :: push_events content_key content_value tried
                         ++ Print ["Collecting receipts to propagate..."]
                         :: wait_events w3 waited
                         ++ Print ["Collected receipts"]
                         :: push_events k v before),
                   (MakeRequest x "portal_historyStore"
                      [encode_hex k; encode_hex v] (Raise e)), e.
                 split; [ rewrite Ht; flatten_events; reflexivity | ].
                 split; [ | split; [ reflexivity | exact Hres ] ].
                 quiet_events.
                 rewrite Hq1, Hq2, (push_events_all_returned k v Hall).
                 reflexivity.
           ++ destruct H as (Hres & Ht). left. rewrite Ht. quiet_events.
              rewrite Hq1, Hq2. reflexivity.
        -- destruct H as (Hres & Ht). right.
           apply attempts_Raise in Hw.
           destruct Hw as (before & x & after & _ & -> & Hall).
           unfold wait_events in Ht. rewrite map_app in Ht.
           cbn [map fst snd] in Ht. fold (wait_events w3 before) in Ht.
           exists (GetBlock w3 header_hash false (Ok block_fields)
                   :: push_events content_key content_value tried
                   ++ Print ["Collecting receipts to propagate..."]
                   :: wait_events w3 before),
             (WaitForTransactionReceipt w3 x 2 (Raise e)), e.
           split; [ rewrite Ht; flatten_events; reflexivity | ].
           split; [ | split; [ reflexivity | exact Hres ] ].
           quiet_events.
           rewrite Hq1, (wait_events_all_returned w3 Hall). reflexivity.
      * destruct H as (Hres & Ht). right.
        apply attempts_Raise in Ha.
        destruct Ha as (before & x & after & _ & -> & Hall).
        rewrite push_events_app in Ht. cbn [map fst snd] in Ht.
        exists (GetBlock w3 header_hash false (Ok block_fields)
                :: push_events content_key content_value before),
          (MakeRequest x "portal_historyStore"
             [encode_hex content_key; encode_hex content_value] (Raise e)), e.
        split; [ rewrite Ht; flatten_events; reflexivity | ].
        split; [ | split; [ reflexivity | exact Hres ] ].
        quiet_events.
        rewrite (push_events_all_returned content_key content_value Hall).
        reflexivity.
    + destruct H as (_ & ->). left. reflexivity.
  - destruct H as (Hres & ->). right.
    exists [], (GetBlock w3 header_hash false (Raise e)), e. auto.
Qed.

(** X2: [handle_new_header] returns normally only when everything was
    done: the block fetched passed both header checks, a receipt was
    requested for every transaction, the receipts decoded and hashed to the
    header's receiptsRoot, no call raised, and the header pair and then the
    receipts pair were each sent to every node of the collection. *)
Theorem handle_new_header_returns_only_when_all_pushed (w3 : Web3)
    (portal_inserter : ref) (header_hash : bytes) (chain_id : Z) (s : state) :
  let out := handle_new_header w3 portal_inserter header_hash chain_id s in
  let web3_links := _web3_links (objects s portal_inserter) in
  res out = Ok tt ->
  exists block_fields header receipts,
    fst (get_block w3 header_hash false (world s)) = Ok block_fields /\
    block_fields_to_header block_fields = Ok header /\
    keccak (rlp_encode header) = hash block_fields /\
    BlockHeader_hash header = hash block_fields /\
    comprehension
      (fun receipt => receipt_fields_to_receipt receipt (number block_fields))
      (fetched_receipts (emitted out)) = Ok receipts /\
    fst (make_trie_root_and_nodes receipts) = receiptsRoot block_fields /\
    quiet (emitted out) = true /\
    receipt_waits (emitted out)
    = map (receipt_request w3) (transactions block_fields) /\
    push_history_calls (emitted out)
    = [(encode_hex (header_content_key (hash block_fields) chain_id),
        encode_hex (rlp_encode header));
       (encode_hex (receipt_content_key (hash block_fields) chain_id),
        encode_hex (receipt_content_value receipts))] /\
    store_requests (emitted out)
    = map (store_request (header_content_key (hash block_fields) chain_id)
             (rlp_encode header)) web3_links
      ++ map (store_request (receipt_content_key (hash block_fields) chain_id)
                (receipt_content_value receipts)) web3_links.
Proof.
  cbv zeta. intros Hok.
  pose proof (handle_new_header_cases w3 portal_inserter header_hash chain_id s)
    as H. cbv zeta in H.
  destruct (fst (get_block w3 header_hash false (world s)))
    as [block_fields | e] eqn:Hfetched;
    [ | destruct H as (Hres & _); congruence ].
  destruct (block_fields_to_content block_fields chain_id)
    as [[content_key content_value] | e] eqn:Hcontent;
    [ | destruct H as (Hres & _); congruence ].
  clear H.
  destruct (handle_new_header_accepted w3 portal_inserter header_hash
              chain_id s Hfetched Hcontent) as (tried & pushed & Ha & H).
  destruct pushed as [rs | e]; [ | destruct H as (Hres & _); congruence ].
  destruct H as (waited & fetched & Hw & H).
  destruct fetched as [web3_receipts | e];
    [ | destruct H as (Hres & _); congruence ].
  destruct (encode_receipts_content web3_receipts chain_id
              (hash block_fields) (number block_fields)
              (receiptsRoot block_fields)) as [[k v] | e] eqn:Hencode;
    [ | destruct H as (Hres & _); congruence ].
  destruct H as (tried' & pushed' & Hp & Hres & Ht).
  destruct pushed' as [rs' | e]; [ | rewrite Hres in Hok; discriminate Hok ].
  apply block_fields_to_content_Ok in Hcontent.
  destruct Hcontent as (header & Hheader & Hkeccak & Hhash & -> & ->).
  apply encode_receipts_content_Ok in Hencode.
  destruct Hencode as (receipts & Hdecode & Hroot & -> & ->).
  exists block_fields, header, receipts.
  pose proof (push_events_all_returned
                (header_content_key (hash block_fields) chain_id)
                (rlp_encode header) (attempts_Ok_all Ha)) as Hq1.
  pose proof (wait_events_all_returned w3 (attempts_Ok_all Hw)) as Hq2.
  pose proof (push_events_all_returned
                (receipt_content_key (hash block_fields) chain_id)
                (receipt_content_value receipts) (attempts_Ok_all Hp)) as Hq3.
  pose proof (wait_events_fetched w3 Hw) as Hf.
  apply attempts_Ok in Ha. destruct Ha as [Hlinks _].
  apply attempts_Ok in Hp. destruct Hp as [Hlinks' _].
  apply attempts_Ok in Hw. destruct Hw as [Hwaited _].
  rewrite Ht. read_events. quiet_events.
  rewrite Hf, Hq1, Hq2, Hq3, Hlinks, Hlinks', Hwaited, !app_nil_r.
  repeat split; assumption.
Qed.

(** X3: whatever [handle_new_header] pushes is addressed by the hash of the
    header it pushes: the key of the first [push_history] call is the
    header content key of the keccak of the very value pushed, and the key
    of the second is the receipt content key of that same hash.  There is
    never a third call. *)
Theorem pushed_keys_address_the_pushed_header (w3 : Web3)
    (portal_inserter : ref) (header_hash : bytes) (chain_id : Z) (s : state) :
  let out := handle_new_header w3 portal_inserter header_hash chain_id s in
  push_history_calls (emitted out) = [] \/
  exists header_rlp,
    push_history_calls (emitted out)
    = [(encode_hex (header_content_key (keccak header_rlp) chain_id),
        encode_hex header_rlp)] \/
    exists receipts_value,
      push_history_calls (emitted out)
      = [(encode_hex (header_content_key (keccak header_rlp) chain_id),
          encode_hex header_rlp);
         (encode_hex (receipt_content_key (keccak header_rlp) chain_id),
          encode_hex receipts_value)].
Proof.
  cbv zeta.
  pose proof (handle_new_header_cases w3 portal_inserter header_hash chain_id s)
    as H. cbv zeta in H.
  destruct (fst (get_block w3 header_hash false (world s)))
    as [block_fields | e] eqn:Hfetched;
    [ | destruct H as (_ & ->); left; reflexivity ].
  destruct (block_fields_to_content block_fields chain_id)
    as [[content_key content_value] | e] eqn:Hcontent;
    [ | destruct H as (_ & ->); left; reflexivity ].
  clear H.
  destruct (handle_new_header_accepted w3 portal_inserter header_hash
              chain_id s Hfetched Hcontent) as (tried & pushed & Ha & H).
  apply block_fields_to_content_Ok in Hcontent.
  destruct Hcontent as (header & Hheader & Hkeccak & Hhash & -> & ->).
  right. exists (rlp_encode header). rewrite Hkeccak.
  destruct pushed as [rs | e];
    [ | destruct H as (_ & ->); left; read_events; reflexivity ].
  destruct H as (waited & fetched & Hw & H).
  destruct fetched as [web3_receipts | e];
    [ | destruct H as (_ & ->); left; read_events; reflexivity ].
  destruct (encode_receipts_content web3_receipts chain_id
              (hash block_fields) (number block_fields)
              (receiptsRoot block_fields)) as [[k v] | e] eqn:Hencode;
    [ | destruct H as (_ & ->); left; read_events; reflexivity ].
  destruct H as (tried' & pushed' & _ & _ & ->).
  apply encode_receipts_content_Ok in Hencode.
  destruct Hencode as (receipts & _ & _ & -> & ->).
  right. exists (receipt_content_value receipts). read_events. reflexivity.
Qed.

(** X4: what a [handle_new_header] run asks of the outside is bounded: one
    block request, for the notified hash and without full transactions; at
    most one receipt request per transaction of the block returned (none
    when the block request raised); at most two [push_history] calls and at
    most two store requests per node of the collection. *)
Theorem handle_new_header_call_bounds (w3 : Web3) (portal_inserter : ref)
    (header_hash : bytes) (chain_id : Z) (s : state) :
  let out := handle_new_header w3 portal_inserter header_hash chain_id s in
  let web3_links := _web3_links (objects s portal_inserter) in
  block_fetches (emitted out) = [(w3, header_hash, false)] /\
  length (receipt_waits (emitted out))
    <= match fst (get_block w3 header_hash false (world s)) with
       | Ok block_fields => length (transactions block_fields)
       | Raise _ => 0
       end /\
  length (push_history_calls (emitted out)) <= 2 /\
  length (store_requests (emitted out)) <= 2 * length web3_links.
Proof.
  cbv zeta.
  assert (Hb_app : forall t t' : list event,
            block_fetches (t ++ t') = block_fetches t ++ block_fetches t').
  { induction t as [| ev t IH]; intros t'; [ reflexivity | ].
    cbn [app block_fetches]. rewrite IH. destruct ev; reflexivity. }
  assert (Hb_push : forall k v tried, block_fetches (push_events k v tried) = []).
  { intros k v tried. unfold push_events. cbn [block_fetches].
    induction tried as [| p tried IH]; [ reflexivity | exact IH ]. }
  assert (Hb_wait : forall waited, block_fetches (wait_events w3 waited) = []).
  { induction waited as [| p waited IH]; [ reflexivity | exact IH ]. }
  pose proof (handle_new_header_cases w3 portal_inserter header_hash chain_id s)
    as H. cbv zeta in H.
  destruct (fst (get_block w3 header_hash false (world s)))
    as [block_fields | e] eqn:Hfetched;
    [ | destruct H as (_ & ->); cbn; repeat split; lia ].
  destruct (block_fields_to_content block_fields chain_id)
    as [[content_key content_value] | e] eqn:Hcontent;
    [ | destruct H as (_ & ->); cbn; repeat split; lia ].
  clear H.
  destruct (handle_new_header_accepted w3 portal_inserter header_hash
              chain_id s Hfetched Hcontent) as (tried & pushed & Ha & H).
  pose proof (attempts_length Ha) as Hlen.
  destruct pushed as [rs | e].
  - destruct H as (waited & fetched & Hw & H).
    pose proof (attempts_length Hw) as Hlenw.
    destruct fetched as [web3_receipts | e].
    + destruct (encode_receipts_content web3_receipts chain_id
                  (hash block_fields) (number block_fields)
                  (receiptsRoot block_fields)) as [[k v] | e].
      * destruct H as (tried' & pushed' & Hp & _ & ->).
        pose proof (attempts_length Hp) as Hlen'.
        cbn [block_fetches]. rewrite !Hb_app, Hb_push. cbn [block_fetches app].
        rewrite !Hb_app, Hb_wait. cbn [block_fetches app]. rewrite Hb_push.
        read_events. rewrite !length_app, !length_map. cbn [length].
        repeat split; lia.
      * destruct H as (_ & ->).
        cbn [block_fetches]. rewrite !Hb_app, Hb_push. cbn [block_fetches app].
        rewrite !Hb_app, Hb_wait. cbn [block_fetches app].
        read_events. rewrite !length_app, !length_map. cbn [length].
        repeat split; lia.
    + destruct H as (_ & ->).
      cbn [block_fetches]. rewrite !Hb_app, Hb_push. cbn [block_fetches app].
      rewrite Hb_wait.
      read_events. rewrite !length_app, !length_map. cbn [length].
      repeat split; lia.
  - destruct H as (_ & ->).
    cbn [block_fetches]. rewrite Hb_push.
    read_events. rewrite !length_map. cbn [length].
    repeat split; lia.
Qed.

Lemma comprehension_raises {A B} (f : A -> result B) (before after : list A)
    (x : A) (ys : list B) (e : exception) :
  comprehension f before = Ok ys ->
  f x = Raise e ->
  comprehension f (before ++ x :: after) = Raise e.
Proof.
  revert ys. induction before as [| a before IH]; intros ys Hbefore Hx.
  - cbn [app comprehension bind Monad_result]. rewrite Hx. reflexivity.
  - cbn [app comprehension bind Monad_result] in *.
    destruct (f a) as [b | e']; [ | discriminate ].
    destruct (comprehension f before) as [ys' | e']; [ | discriminate ].
    rewrite (IH ys' eq_refl Hx). reflexivity.
Qed.

(** X5: a receipt that cannot be decoded makes [encode_receipts_content]
    raise the decoder's own exception, whatever the receipt root and
    whatever comes after that receipt: the root is not even compared. *)
Theorem encode_receipts_content_undecodable_receipt
    (before after : list Web3Receipt) (receipt : Web3Receipt)
    (decoded : list Receipt) (chain_id : Z) (header_hash : bytes)
    (block_number : Z) (receipt_root : bytes) (e : exception) :
  comprehension (fun r => receipt_fields_to_receipt r block_number) before
    = Ok decoded ->
  receipt_fields_to_receipt receipt block_number = Raise e ->
  encode_receipts_content (before ++ receipt :: after) chain_id header_hash
    block_number receipt_root = Raise e.
Proof.
  intros Hbefore Hreceipt. unfold encode_receipts_content.
  rewrite (comprehension_raises
             (fun r => receipt_fields_to_receipt r block_number)
             before after receipt Hbefore Hreceipt).
  reflexivity.
Qed.

(** X6: a block without transactions: once its header is pushed,
    [handle_new_header] asks for no receipt at all and goes on with the
    empty receipt list, so the receipts are pushed exactly when the trie
    root of no receipts is the header's receiptsRoot, and the run raises
    ValidationError otherwise. *)
Theorem handle_new_header_block_without_transactions (w3 : Web3)
    (portal_inserter : ref) (header_hash : bytes) (chain_id : Z) (s : state)
    (block_fields : block) (content_key content_value : bytes) :
  let out := handle_new_header w3 portal_inserter header_hash chain_id s in
  let empty_root := fst (make_trie_root_and_nodes (@nil Receipt)) in
  fst (get_block w3 header_hash false (world s)) = Ok block_fields ->
  transactions block_fields = [] ->
  block_fields_to_content block_fields chain_id
    = Ok (content_key, content_value) ->
  quiet (emitted out) = true ->
  receipt_waits (emitted out) = [] /\
  (empty_root = receiptsRoot block_fields ->
   res out = Ok tt /\
   push_history_calls (emitted out)
   = [(encode_hex content_key, encode_hex content_value);
      (encode_hex (receipt_content_key (hash block_fields) chain_id),
       encode_hex (receipt_content_value []))]) /\
  (empty_root <> receiptsRoot block_fields ->
   res out = Raise (receipts_root_error (hash block_fields)) /\
   push_history_calls (emitted out)
   = [(encode_hex content_key, encode_hex content_value)]).
Proof.
  cbv zeta. intros Hfetched Hempty Hcontent Hquiet.
  destruct (handle_new_header_accepted w3 portal_inserter header_hash
              chain_id s Hfetched Hcontent) as (tried & pushed & Ha & H).
  destruct pushed as [rs | e].
  - destruct H as (waited & fetched & Hw & H).
    rewrite Hempty in Hw. inversion Hw; subst.
    pose proof (encode_receipts_content_cases [] chain_id
                  (hash block_fields) (number block_fields)
                  (receiptsRoot block_fields)) as He.
    cbn [comprehension] in He.
    destruct He as [[Hne He] | [Heq He]]; rewrite He in H.
    + destruct H as (Hres & Ht). rewrite Ht. read_events.
      split; [ reflexivity | ]. split; [ intros; contradiction | ].
      intros _. split; [ exact Hres | reflexivity ].
    + destruct H as (tried' & pushed' & Hp & Hres & Ht).
      rewrite Ht in Hquiet.
      apply quiet_tail, quiet_app_r, quiet_tail in Hquiet.
      cbn [wait_events map app] in Hquiet.
      apply quiet_tail, quiet_Forall, push_events_none_raised in Hquiet.
      destruct (attempts_none_raised Hp Hquiet) as [_ [rs' ->]].
      rewrite Ht. read_events.
      split; [ reflexivity | ]. split; [ | intros; contradiction ].
      intros _. split; [ exact Hres | reflexivity ].
  - exfalso. destruct H as (_ & Ht). rewrite Ht in Hquiet.
    apply quiet_tail, quiet_Forall, push_events_none_raised in Hquiet.
    destruct (attempts_none_raised Ha Hquiet) as [_ [rs' Habs]]. discriminate.
Qed.

(** X7: [propagate_header] returns block fields only when they are the ones
    the provider returned for the notified hash, both header checks passed
    and the header pair was sent to every node of the collection, each
    request returning. *)
Theorem propagate_header_returns_pushed_block (w3 : Web3)
    (portal_inserter : ref) (chain_id : Z) (header_hash : bytes) (s : state)
    (block_fields : block) :
  let out := propagate_header w3 portal_inserter chain_id header_hash s in
  let web3_links := _web3_links (objects s portal_inserter) in
  res out = Ok block_fields ->
  fst (get_block w3 header_hash false (world s)) = Ok block_fields /\
  exists header,
    block_fields_to_header block_fields = Ok header /\
    keccak (rlp_encode header) = hash block_fields /\
    BlockHeader_hash header = hash block_fields /\
    quiet (emitted out) = true /\
    push_history_calls (emitted out)
    = [(encode_hex (header_content_key (hash block_fields) chain_id),
        encode_hex (rlp_encode header))] /\
    store_requests (emitted out)
    = map (store_request (header_content_key (hash block_fields) chain_id)
             (rlp_encode header)) web3_links.
Proof.
  cbv zeta. intros Hok.
  destruct (propagate_header_run w3 portal_inserter chain_id header_hash s)
    as (Hrun & _ & Hhd).
  rewrite Hok in Hrun.
  remember (Ok block_fields) as r eqn:Er in Hrun.
  destruct Hrun as [e | block_fields' e Hc | block_fields' k v tried pushed Hc Ha];
    try discriminate.
  destruct pushed as [rs | e]; [ | discriminate ].
  cbn [bind ret Monad_result] in Er. inversion Er; subst block_fields'.
  cbn [hd_error] in Hhd. inversion Hhd as [Hf].
  split; [ congruence | ]. clear Hhd.
  apply block_fields_to_content_Ok in Hc.
  destruct Hc as (header & Hheader & Hkeccak & Hhash & -> & ->).
  exists header.
  pose proof (push_events_all_returned
                (header_content_key (hash block_fields) chain_id)
                (rlp_encode header) (attempts_Ok_all Ha)) as Hq.
  apply attempts_Ok in Ha. destruct Ha as [Hlinks _].
  read_events. quiet_events. rewrite Hq, Hlinks. auto 10.
Qed.

End Properties.

(** * The properties on the concrete world *)

Import Scenario.

(** A healthy notification, run by evaluation. *)
Example healthy_notification :
  let out := @handle_new_header toy provider inserter (hash healthy) 1
               (start [1; 2]) in
  res out = Ok tt /\
  push_history_calls (emitted out)
  = [("0x000b0a", "0x0a0b"); ("0x020b0a", "0x0102")] /\
  store_requests (emitted out)
  = [(1, "portal_historyStore", ["0x000b0a"; "0x0a0b"]);
     (2, "portal_historyStore", ["0x000b0a"; "0x0a0b"]);
     (1, "portal_historyStore", ["0x020b0a"; "0x0102"]);
     (2, "portal_historyStore", ["0x020b0a"; "0x0102"])] /\
  receipt_waits (emitted out)
  = [(provider, [Byte.x01], 2%Z); (provider, [Byte.x02], 2%Z)].
Proof. vm_compute. auto. Qed.

(** C1 at the block whose asserted hash the encoded header does not have,
    and at the healthy block, whose header is pushed. *)
Lemma header_pushed_only_if_hash_matches_witness :
  let rejected := @handle_new_header toy provider inserter
                    (hash corrupt_header) 1 (start [1; 2]) in
  let accepted := @handle_new_header toy provider inserter
                    (hash healthy) 1 (start [1; 2]) in
  (fst (@get_block toy provider (hash corrupt_header) false 0%nat)
     = Ok corrupt_header /\
   @block_fields_to_header toy corrupt_header
     = Ok (header_fields corrupt_header) /\
   @keccak toy (@rlp_encode toy (header_fields corrupt_header))
     <> hash corrupt_header) /\
  (res rejected
     = Raise (@header_encoding_error toy corrupt_header
                (header_fields corrupt_header)) /\
   push_history_calls (emitted rejected) = [] /\
   store_requests (emitted rejected) = []) /\
  push_history_calls (emitted accepted) <> [] /\
  exists block_fields header,
    fst (@get_block toy provider (hash healthy) false 0%nat) = Ok block_fields /\
    @block_fields_to_header toy block_fields = Ok header /\
    @keccak toy (@rlp_encode toy header) = hash block_fields.
Proof.
  cbv zeta.
  assert (Hne : @keccak toy (@rlp_encode toy (header_fields corrupt_header))
                <> hash corrupt_header) by (cbv; discriminate).
  assert (Hpush : push_history_calls
                    (emitted (@handle_new_header toy provider inserter
                                (hash healthy) 1 (start [1; 2]))) <> [])
    by (vm_compute; discriminate).
  split; [ split; [ reflexivity | split; [ reflexivity | exact Hne ] ] | ].
  destruct (@header_pushed_only_if_hash_matches toy provider inserter
              (hash corrupt_header) 1 (start [1; 2])) as [_ H].
  destruct (H corrupt_header (header_fields corrupt_header)
              eq_refl eq_refl Hne) as (_ & Hres & _ & Hcalls & Hreqs).
  split; [ auto | ]. split; [ exact Hpush | ].
  exact (proj1 (@header_pushed_only_if_hash_matches toy provider inserter
                  (hash healthy) 1 (start [1; 2])) (or_introl Hpush)).
Defined.

(** C2 at the block whose receipts do not hash to its receipts root. *)
Lemma receipts_pushed_only_if_root_matches_witness :
  let out := @handle_new_header toy provider inserter (hash corrupt_receipts) 1
               (start [1; 2]) in
  (fst (@get_block toy provider (hash corrupt_receipts) false 0%nat)
     = Ok corrupt_receipts /\
   receipts_collected (emitted out) = true /\
   comprehension
     (fun receipt => @receipt_fields_to_receipt toy receipt
                       (number corrupt_receipts))
     (fetched_receipts (emitted out)) = Ok [[Byte.x01]; [Byte.x02]] /\
   fst (@make_trie_root_and_nodes toy [[Byte.x01]; [Byte.x02]])
     <> receiptsRoot corrupt_receipts) /\
  res out = Raise (@receipts_root_error toy (hash corrupt_receipts)) /\
  push_history_calls (emitted out) = [("0x000f0e", "0x0e0f")].
Proof.
  cbv zeta.
  assert (Hin : receipts_collected
                  (emitted (@handle_new_header toy provider inserter
                              (hash corrupt_receipts) 1 (start [1; 2])))
                = true)
    by (vm_compute; reflexivity).
  assert (Hdecoded :
    comprehension
      (fun receipt => @receipt_fields_to_receipt toy receipt
                        (number corrupt_receipts))
      (fetched_receipts
         (emitted (@handle_new_header toy provider inserter
                     (hash corrupt_receipts) 1 (start [1; 2]))))
    = Ok [[Byte.x01]; [Byte.x02]])
    by (vm_compute; reflexivity).
  assert (Hne : fst (@make_trie_root_and_nodes toy [[Byte.x01]; [Byte.x02]])
                <> receiptsRoot corrupt_receipts) by (cbv; discriminate).
  split; [ auto | ].
  destruct (@receipts_pushed_only_if_root_matches toy provider inserter
              (hash corrupt_receipts) 1 (start [1; 2]) corrupt_receipts
              eq_refl) as [_ H].
  destruct (H _ Hin Hdecoded Hne)
    as (_ & Hres & content_key & content_value & Hcontent & Hcalls & _).
  split; [ exact Hres | ].
  rewrite Hcalls.
  vm_compute in Hcontent. inversion Hcontent. reflexivity.
Defined.

(** C3 at the block whose header is rejected, where nothing follows the
    fetch, and at the healthy block, where every stage runs. *)
Lemma pipeline_stages_in_order_witness :
  let rejected := @handle_new_header toy provider inserter (hash corrupt_header)
                    1 (start [1; 2]) in
  let accepted := @handle_new_header toy provider inserter (hash healthy) 1
                    (start [1; 2]) in
  (res rejected
   = Raise (@header_encoding_error toy corrupt_header
              (header_fields corrupt_header)) /\
   emitted rejected
   = [@GetBlock toy provider (hash corrupt_header) false (Ok corrupt_header)]) /\
  exists header_push receipts_fetch receipts_push,
    emitted accepted
    = @GetBlock toy provider (hash healthy) false (Ok healthy)
      :: header_push ++ receipts_fetch ++ receipts_push /\
    push_history_calls header_push = [("0x000b0a", "0x0a0b")] /\
    store_requests header_push
    = [(1, "portal_historyStore", ["0x000b0a"; "0x0a0b"]);
       (2, "portal_historyStore", ["0x000b0a"; "0x0a0b"])] /\
    hd_error receipts_fetch
    = Some (@Print toy ["Collecting receipts to propagate..."]) /\
    receipt_waits receipts_fetch
    = [(provider, [Byte.x01], 2%Z); (provider, [Byte.x02], 2%Z)] /\
    receipts_collected receipts_fetch = true /\
    push_history_calls receipts_push = [("0x020b0a", "0x0102")] /\
    store_requests receipts_push
    = [(1, "portal_historyStore", ["0x020b0a"; "0x0102"]);
       (2, "portal_historyStore", ["0x020b0a"; "0x0102"])] /\
    res accepted = Ok tt.
Proof.
  cbv zeta. split.
  - destruct (@pipeline_stages_in_order toy provider inserter
                (hash corrupt_header) 1 (start [1; 2]))
      as (header_push & receipts_fetch & receipts_push & Ht & _ & _ & _ & H).
    change (fst (@get_block toy provider (hash corrupt_header) false
                   (world (start [1; 2]))))
      with (@Ok (@block toy) corrupt_header) in H, Ht.
    cbv beta iota in H.
    change (@block_fields_to_content toy corrupt_header 1)
      with (@Raise (bytes * bytes)
              (@header_encoding_error toy corrupt_header
                 (header_fields corrupt_header))) in H.
    cbv beta iota in H. destruct H as (Hres & -> & -> & ->).
    split; [ exact Hres | exact Ht ].
  - assert (Hquiet : quiet (emitted (@handle_new_header toy provider inserter
                                       (hash healthy) 1 (start [1; 2]))) = true)
      by (vm_compute; reflexivity).
    assert (Hfetched :
      fetched_receipts (emitted (@handle_new_header toy provider inserter
                                   (hash healthy) 1 (start [1; 2])))
      = [[Byte.x01]; [Byte.x02]])
      by (vm_compute; reflexivity).
    destruct (@pipeline_stages_in_order toy provider inserter (hash healthy) 1
                (start [1; 2]))
      as (header_push & receipts_fetch & receipts_push & Ht & Hhp & _ & Hrp & H).
    change (fst (@get_block toy provider (hash healthy) false
                   (world (start [1; 2]))))
      with (@Ok (@block toy) healthy) in H, Ht.
    cbv beta iota in H.
    change (@block_fields_to_content toy healthy 1)
      with (@Ok (bytes * bytes)
              ([Byte.x00; Byte.x0b; Byte.x0a], [Byte.x0a; Byte.x0b])) in H.
    cbv beta iota in H.
    rewrite Ht in Hquiet, Hfetched.
    apply quiet_tail in Hquiet. rewrite !quiet_app in Hquiet.
    apply andb_true_iff in Hquiet. destruct Hquiet as [Hq1 Hquiet].
    apply andb_true_iff in Hquiet. destruct Hquiet as [Hq2 Hq3].
    cbn [fetched_receipts] in Hfetched.
    rewrite !fetched_receipts_app, (pushes_fetch_nothing _ Hhp),
      (pushes_fetch_nothing _ Hrp), app_nil_r in Hfetched.
    cbn [app] in Hfetched.
    destruct H as [Hcalls H]. rewrite Hq1 in H.
    destruct H as (Hreqs & Hhd & H). rewrite Hq2, Hfetched in H.
    destruct H as (Hwaits & Hcollected & H).
    change (@encode_receipts_content toy [[Byte.x01]; [Byte.x02]] 1
              (hash healthy) (number healthy) (receiptsRoot healthy))
      with (@Ok (bytes * bytes)
              ([Byte.x02; Byte.x0b; Byte.x0a], [Byte.x01; Byte.x02])) in H.
    cbv beta iota in H. destruct H as (Hcalls' & H). rewrite Hq3 in H.
    destruct H as (Hreqs' & Hres).
    exists header_push, receipts_fetch, receipts_push.
    split; [ exact Ht | ]. split; [ exact Hcalls | ].
    split; [ exact Hreqs | ]. split; [ exact Hhd | ].
    split; [ exact Hwaits | ]. split; [ exact Hcollected | ].
    split; [ exact Hcalls' | ]. split; [ exact Hreqs' | exact Hres ].
Defined.

(** C4 as stated fails: with nodes 1, 9, 2 and node 9 unreachable, the
    request to node 9 raises, node 2 is never sent the pair, and the
    exception leaves [push_history]. *)
Lemma push_history_failure_is_not_isolated :
  let out := @push_history toy inserter [Byte.x0a] [Byte.x0b]
               (start [1; 9; 2]) in
  raised_requests (emitted out) = [(9, OtherError "ConnectionError")] /\
  store_requests (emitted out)
  = [(1, "portal_historyStore", ["0x0a"; "0x0b"]);
     (9, "portal_historyStore", ["0x0a"; "0x0b"])] /\
  ~ In (@store_request toy [Byte.x0a] [Byte.x0b] 2)
       (store_requests (emitted out)) /\
  res out = Raise (OtherError "ConnectionError").
Proof.
  vm_compute. split; [ reflexivity | ]. split; [ reflexivity | ].
  split; [ | reflexivity ].
  intros [H | [H | []]]; discriminate.
Qed.

(** C4, as amended, at the same call. *)
Lemma push_history_stops_at_first_failure_witness :
  let out := @push_history toy inserter [Byte.x0a] [Byte.x0b]
               (start [1; 9; 2]) in
  In (9, OtherError "ConnectionError") (raised_requests (emitted out)) /\
  res out = Raise (OtherError "ConnectionError") /\
  exists before after,
    [1; 9; 2] = before ++ 9 :: after /\
    store_requests (emitted out)
    = map (@store_request toy [Byte.x0a] [Byte.x0b]) (before ++ [9]).
Proof.
  cbv zeta.
  assert (Hin : In (9, OtherError "ConnectionError")
                   (raised_requests
                      (emitted (@push_history toy inserter [Byte.x0a] [Byte.x0b]
                                  (start [1; 9; 2])))))
    by (vm_compute; left; reflexivity).
  split; [ exact Hin | ].
  exact (@push_history_stops_at_first_failure toy inserter [Byte.x0a]
           [Byte.x0b] (start [1; 9; 2]) 9 (OtherError "ConnectionError") Hin).
Defined.

(** C6 as stated fails: with node 9 first in the collection, node 1 is
    never sent the pair. *)
Lemma push_history_misses_nodes_after_a_failure :
  let out := @push_history toy inserter [Byte.x0a] [Byte.x0b] (start [9; 1]) in
  store_requests (emitted out)
  = [@store_request toy [Byte.x0a] [Byte.x0b] 9] /\
  store_requests (emitted out)
  <> map (@store_request toy [Byte.x0a] [Byte.x0b]) [9; 1].
Proof.
  vm_compute. split; [ reflexivity | discriminate ].
Qed.

(** C6, as amended, at a call in which no request raises and at a call in
    which the request to the second of three nodes raises. *)
Lemma push_history_sends_in_order_witness :
  let returned := @push_history toy inserter [Byte.x0a] [Byte.x0b]
                    (start [1; 2]) in
  let failed := @push_history toy inserter [Byte.x0a] [Byte.x0b]
                  (start [1; 9; 2]) in
  let request := @store_request toy [Byte.x0a] [Byte.x0b] in
  (quiet (emitted returned) = true /\
   store_requests (emitted returned) = map request [1; 2] /\
   res returned = Ok tt) /\
  exists before w3 after e sent,
    [1; 9; 2] = before ++ w3 :: after /\
    emitted failed
    = sent ++ [@MakeRequest toy w3 "portal_historyStore" ["0x0a"; "0x0b"]
                 (Raise e)] /\
    quiet sent = true /\
    store_requests sent = map request before /\
    store_requests (emitted failed) = map request (before ++ [w3]) /\
    res failed = Raise e.
Proof.
  cbv zeta. split.
  - destruct (@push_history_sends_in_order toy inserter [Byte.x0a] [Byte.x0b]
                (start [1; 2]))
      as [H | (before & w3 & after & e & sent & _ & _ & _ & _ & _ & Hres)];
      [ exact H | vm_compute in Hres; discriminate Hres ].
  - destruct (@push_history_sends_in_order toy inserter [Byte.x0a] [Byte.x0b]
                (start [1; 9; 2])) as [(Hquiet & _) | H];
      [ vm_compute in Hquiet; discriminate Hquiet | exact H ].
Defined.

(** C5 as stated fails: the provider returns the healthy block, whose
    encoded header hashes to the asserted hash and whose receipts hash to
    its receipts root, but node 9 of the collection is unreachable: the
    header request to it raises, the run raises that exception, and there
    has been one [push_history] call, not two; no receipt is requested. *)
Lemma handle_new_header_stops_at_unreachable_node :
  let out := @handle_new_header toy provider inserter (hash healthy) 1
               (start [1; 9]) in
  let header := header_fields healthy in
  fst (@get_block toy provider (hash healthy) false 0%nat) = Ok healthy /\
  @block_fields_to_header toy healthy = Ok header /\
  @keccak toy (@rlp_encode toy header) = hash healthy /\
  @BlockHeader_hash toy header = @keccak toy (@rlp_encode toy header) /\
  map (fun txn_hash =>
         fst (@wait_for_transaction_receipt toy provider txn_hash 2 0%nat))
      (transactions healthy)
    = [Ok [Byte.x01]; Ok [Byte.x02]] /\
  comprehension
    (fun receipt => @receipt_fields_to_receipt toy receipt (number healthy))
    [[Byte.x01]; [Byte.x02]] = Ok [[Byte.x01]; [Byte.x02]] /\
  fst (@make_trie_root_and_nodes toy [[Byte.x01]; [Byte.x02]])
    = receiptsRoot healthy /\
  res out = Raise (OtherError "ConnectionError") /\
  push_history_calls (emitted out) = [("0x000b0a", "0x0a0b")] /\
  raised_requests (emitted out) = [(9, OtherError "ConnectionError")] /\
  receipt_waits (emitted out) = [].
Proof.
  cbv zeta.
  split; [ reflexivity | ]. split; [ reflexivity | ].
  split; [ reflexivity | ]. split; [ reflexivity | ].
  split; [ reflexivity | ]. split; [ reflexivity | ].
  split; [ reflexivity | ].
  split; [ vm_compute; reflexivity | ].
  split; [ vm_compute; reflexivity | ].
  split; vm_compute; reflexivity.
Qed.

(** C5, as amended, at the healthy block. *)
Lemma handle_new_header_pushes_header_then_receipts_witness :
  let out := @handle_new_header toy provider inserter (hash healthy) 1
               (start [1; 2]) in
  quiet (emitted out) = true /\
  res out = Ok tt /\
  push_history_calls (emitted out)
  = [("0x000b0a", "0x0a0b"); ("0x020b0a", "0x0102")].
Proof.
  cbv zeta.
  assert (Hquiet : quiet (emitted (@handle_new_header toy provider inserter
                                     (hash healthy) 1 (start [1; 2]))) = true)
    by (vm_compute; reflexivity).
  assert (Hdecoded :
    comprehension
      (fun receipt => @receipt_fields_to_receipt toy receipt (number healthy))
      (fetched_receipts
         (emitted (@handle_new_header toy provider inserter (hash healthy) 1
                     (start [1; 2]))))
    = Ok [[Byte.x01]; [Byte.x02]])
    by (vm_compute; reflexivity).
  destruct (@handle_new_header_pushes_header_then_receipts toy provider
              inserter (hash healthy) 1 (start [1; 2]) healthy
              (header_fields healthy) [[Byte.x01]; [Byte.x02]]
              eq_refl eq_refl eq_refl eq_refl Hquiet Hdecoded eq_refl)
    as (Hres & Hcalls & _).
  split; [ exact Hquiet | ]. split; [ exact Hres | exact Hcalls ].
Defined.

(** C7 as stated fails: the header of this block is pushed to both nodes,
    the receipt of its first transaction never arrives, and the receipt of
    its second transaction is never requested. *)
Lemma propagate_receipts_stops_at_stuck_receipt :
  let out := @handle_new_header toy provider inserter (hash stuck) 1
               (start [1; 2]) in
  store_requests (emitted out)
  = map (@store_request toy (Byte.x00 :: hash stuck) [Byte.x10; Byte.x11])
        [1; 2] /\
  raised_requests (emitted out) = [] /\
  transactions stuck = [[Byte.xff]; [Byte.x02]] /\
  receipt_waits (emitted out) = [@receipt_request toy provider [Byte.xff]] /\
  receipt_waits (emitted out)
  <> map (@receipt_request toy provider) (transactions stuck) /\
  res out = Raise (OtherError "TimeExhausted").
Proof.
  vm_compute. repeat split. discriminate.
Qed.

(** C7, as amended, at the healthy block, where no receipt request raises,
    and at the block whose first receipt never arrives. *)
Lemma propagate_receipts_waits_in_order_witness :
  let collected := @propagate_receipts toy provider inserter 1 healthy
                     (start [1; 2]) in
  let halted := @propagate_receipts toy provider inserter 1 stuck
                  (start [1; 2]) in
  receipt_waits (emitted collected)
  = map (@receipt_request toy provider) (transactions healthy) /\
  exists before txn_hash after e,
    transactions stuck = map fst before ++ txn_hash :: after /\
    Forall (fun p : bytes * result bytes => exists r, snd p = Ok r) before /\
    emitted halted
    = @Print toy ["Collecting receipts to propagate..."]
      :: @wait_events toy provider (before ++ [(txn_hash, Raise e)]) /\
    receipt_waits (emitted halted)
    = map (@receipt_request toy provider) (map fst before ++ [txn_hash]) /\
    raised_waits (emitted halted) = [(txn_hash, e)] /\
    push_history_calls (emitted halted) = [] /\
    store_requests (emitted halted) = [] /\
    res halted = Raise e.
Proof.
  cbv zeta. split.
  - destruct (@propagate_receipts_waits_in_order toy provider inserter 1
                healthy (start [1; 2]))
      as [(waited & web3_receipts & rest & _ & _ & _ & Hwaits & _)
         | (before & txn_hash & after & e & _ & _ & _ & _ & _ & _ & _ & Hres)];
      [ exact Hwaits | vm_compute in Hres; discriminate Hres ].
  - destruct (@propagate_receipts_waits_in_order toy provider inserter 1 stuck
                (start [1; 2]))
      as [(waited & web3_receipts & rest & _ & _ & _ & Hwaits & _) | H];
      [ vm_compute in Hwaits; discriminate Hwaits | exact H ].
Defined.

(** C8 as stated fails: with nodes 1, 2, 9, 3 and node 9 unreachable, the
    pair is sent to nodes 1, 2 and 9, the request to node 9 raises, and
    node 3, a node of the collection, is sent nothing. *)
Lemma push_history_sends_nothing_behind_unreachable_node :
  let out := @push_history toy inserter [Byte.x0a] [Byte.x0b]
               (start [1; 2; 9; 3]) in
  _web3_links (objects (start [1; 2; 9; 3]) inserter) = [1; 2; 9; 3] /\
  store_requests (emitted out)
  = [(1, "portal_historyStore", ["0x0a"; "0x0b"]);
     (2, "portal_historyStore", ["0x0a"; "0x0b"]);
     (9, "portal_historyStore", ["0x0a"; "0x0b"])] /\
  ~ In 3 (map (fun request => fst (fst request))
            (store_requests (emitted out))) /\
  res out = Raise (OtherError "ConnectionError").
Proof.
  vm_compute. split; [ reflexivity | ]. split; [ reflexivity | ].
  split; [ | reflexivity ].
  intros [H | [H | [H | []]]]; discriminate.
Qed.

(** C8, as amended, at the same call: three requests, each with the pair
    of hex strings, the last of them the one that raised. *)
Lemma store_requests_carry_hex_pair_witness :
  let out := @push_history toy inserter [Byte.x0a] [Byte.x0b]
               (start [1; 2; 9; 3]) in
  exists tried before w3 after e,
    emitted out
    = @Print toy ["Propagate new history content with key, value:";
                  "0x0a"; ","; "0x0b"]
      :: map (fun p => @MakeRequest toy (fst p) "portal_historyStore"
                         ["0x0a"; "0x0b"] (snd p)) tried /\
    [1; 2; 9; 3] = map fst before ++ w3 :: after /\
    tried = before ++ [(w3, Raise e)] /\
    Forall (fun p : nat * result unit => exists r, snd p = Ok r) before /\
    res out = Raise e.
Proof.
  cbv zeta.
  destruct (@store_requests_carry_hex_pair toy inserter [Byte.x0a] [Byte.x0b]
              (start [1; 2; 9; 3]))
    as (tried & Hevents & _ & [(_ & _ & Hres)
                              | (before & w3 & after & e & Hl & Ht & Hall
                                 & Hres)]);
    [ vm_compute in Hres; discriminate Hres | ].
  exists tried, before, w3, after, e.
  split; [ exact Hevents | ]. split; [ exact Hl | ].
  split; [ exact Ht | ]. split; [ exact Hall | exact Hres ].
Defined.

(** C10 at the block whose header object reports another hash. *)
Lemma block_fields_to_content_needs_both_hashes_witness :
  let header := header_fields disagreeing_header in
  (@block_fields_to_header toy disagreeing_header = Ok header /\
   @keccak toy (@rlp_encode toy header) = hash disagreeing_header /\
   @BlockHeader_hash toy header <> hash disagreeing_header) /\
  @block_fields_to_content toy disagreeing_header 1
  = Raise (@header_hash_error toy disagreeing_header header).
Proof.
  cbv zeta.
  assert (Hne : @BlockHeader_hash toy (header_fields disagreeing_header)
                <> hash disagreeing_header) by (cbv; discriminate).
  split; [ split; [ reflexivity | split; [ reflexivity | exact Hne ] ] | ].
  exact (proj1 (@block_fields_to_content_needs_both_hashes toy
                  disagreeing_header 1 (header_fields disagreeing_header)
                  eq_refl) eq_refl Hne).
Defined.

(** * Properties of the node launcher *)

Section LauncherProperties.

Context {F : Foreign} {T : Trin F}.

Lemma launches_app (t t' : list session_event) :
  launches (t ++ t') = launches t ++ launches t'.
Proof.
  induction t as [| ev t IH]; [ reflexivity | ].
  cbn [app launches]. rewrite IH. destruct ev; reflexivity.
Qed.

Lemma started_app (t t' : list session_event) :
  started (t ++ t') = started t ++ started t'.
Proof.
  induction t as [| ev t IH]; [ reflexivity | ].
  cbn [app started]. rewrite IH. destruct ev as [? ? [] | |]; reflexivity.
Qed.

Lemma failed_launches_app (t t' : list session_event) :
  failed_launches (t ++ t') = failed_launches t ++ failed_launches t'.
Proof.
  induction t as [| ev t IH]; [ reflexivity | ].
  cbn [app failed_launches]. rewrite IH.
  destruct ev as [? ? [] | |]; reflexivity.
Qed.

Lemma stopped_app (t t' : list session_event) :
  stopped (t ++ t') = stopped t ++ stopped t'.
Proof.
  induction t as [| ev t IH]; [ reflexivity | ].
  cbn [app stopped]. rewrite IH. destruct ev; reflexivity.
Qed.

Lemma exit_results_app (t t' : list session_event) :
  exit_results (t ++ t') = exit_results t ++ exit_results t'.
Proof.
  induction t as [| ev t IH]; [ reflexivity | ].
  cbn [app exit_results]. rewrite IH. destruct ev; reflexivity.
Qed.

Lemma body_events_app (t t' : list session_event) :
  body_events (t ++ t') = body_events t ++ body_events t'.
Proof.
  induction t as [| ev t IH]; [ reflexivity | ].
  cbn [app body_events]. rewrite IH. destruct ev; reflexivity.
Qed.

Lemma in_body_events (t : list event) :
  body_events (map InBody t) = t /\
  launches (map InBody t) = [] /\
  started (map InBody t) = [] /\
  failed_launches (map InBody t) = [] /\
  stopped (map InBody t) = [] /\
  exit_results (map InBody t) = [].
Proof.
  induction t as [| ev t (IH1 & IH2 & IH3 & IH4 & IH5 & IH6)];
    [ repeat split | ].
  cbn [map body_events launches started failed_launches stopped exit_results].
  rewrite IH1. repeat split; assumption.
Qed.

(** The comprehension of [launch_trin_inserters]. *)
Lemma enter_contexts_run (pairs : list (Z * bytes)) :
  forall (stack : ExitStack) (s : state),
  let '(r, stack', s', t) := enter_contexts pairs stack s in
  stack' = rev (map fst (started t)) ++ stack /\
  launches t
  = map (fun p => (snd p, (9000 + fst p)%Z)) (firstn (length (launches t)) pairs) /\
  stopped t = [] /\ exit_results t = [] /\ body_events t = [] /\
  objects s' = objects s /\
  match r with
  | Ok web3_links =>
      web3_links = map snd (started t) /\
      failed_launches t = [] /\
      length (launches t) = length pairs
  | Raise e =>
      exists key port, failed_launches t = [(key, port, e)]
  end.
Proof.
  induction pairs as [| [idx key] pairs IH]; intros stack s.
  - cbn [enter_contexts]. repeat split.
  - cbn [enter_contexts].
    destruct (launch_trin_enter key (9000 + idx) (world s)) as [[link | e] w].
    + specialize (IH ((key, (9000 + idx)%Z) :: stack) (with_world s w)).
      destruct (enter_contexts pairs ((key, (9000 + idx)%Z) :: stack)
                  (with_world s w)) as [[[r1 stack1] s1] t1].
      destruct IH as (Hstack & Hl & Hs & He & Hb & Ho & Hr).
      cbn [started launches stopped exit_results body_events failed_launches
           map fst snd rev length firstn].
      rewrite <- Hl, <- app_assoc. cbn [app].
      split; [ exact Hstack | ]. split; [ reflexivity | ].
      split; [ exact Hs | ]. split; [ exact He | ]. split; [ exact Hb | ].
      split; [ exact Ho | ].
      destruct r1 as [links | e]; cbn [bind ret Monad_result].
      * destruct Hr as (-> & Hf & Hlen).
        split; [ reflexivity | ]. split; [ exact Hf | ]. rewrite Hlen.
        reflexivity.
      * exact Hr.
    + cbn [started launches stopped exit_results body_events failed_launches
           map fst snd rev length firstn app].
      split; [ reflexivity | ]. split; [ reflexivity | ].
      split; [ reflexivity | ]. split; [ reflexivity | ].
      split; [ reflexivity | ]. split; [ reflexivity | ].
      exists key, (9000 + idx)%Z. reflexivity.
Qed.

(** The loop of [ExitStack.__exit__]. *)
Lemma exit_callbacks_run (stack : ExitStack) :
  forall (vars : exit_vars) (s : state),
  let '(vars', s', t) := exit_callbacks stack vars s in
  stopped t = stack /\
  launches t = [] /\ started t = [] /\ failed_launches t = [] /\
  body_events t = [] /\
  objects s' = objects s /\
  (Forall (eq (Ok false)) (exit_results t) -> vars' = vars).
Proof.
  induction stack as [| [key port] stack IH]; intros vars s.
  - cbn [exit_callbacks]. repeat split.
  - cbn [exit_callbacks].
    destruct (launch_trin_exit key port (exc vars) (world s)) as [r w].
    match goal with
    | |- context [exit_callbacks stack ?v ?s0] =>
        specialize (IH v s0);
        destruct (exit_callbacks stack v s0) as [[vars1 s1] t1]
    end.
    destruct IH as (Hs & Hl & Hst & Hf & Hb & Ho & Hv).
    cbn [stopped launches started failed_launches body_events exit_results].
    rewrite Hs.
    split; [ reflexivity | ]. split; [ exact Hl | ]. split; [ exact Hst | ].
    split; [ exact Hf | ]. split; [ exact Hb | ]. split; [ exact Ho | ].
    intros Hall. inversion Hall as [| x l Hx Hl']; subst.
    apply Hv. assumption.
Qed.

Lemma ExitStack__exit___run (stack : ExitStack) (exc_value : option exception)
    (s : state) :
  let '(r, s', t) := ExitStack__exit__ stack exc_value s in
  stopped t = stack /\
  launches t = [] /\ started t = [] /\ failed_launches t = [] /\
  body_events t = [] /\
  objects s' = objects s /\
  (Forall (eq (Ok false)) (exit_results t) -> r = Ok false).
Proof.
  unfold ExitStack__exit__.
  match goal with
  | |- context [exit_callbacks stack ?v s] =>
      pose proof (exit_callbacks_run stack v s) as H;
      destruct (exit_callbacks stack v s) as [[vars1 s1] t1]
  end.
  destruct H as (Hs & Hl & Hst & Hf & Hb & Ho & Hv).
  split; [ exact Hs | ]. split; [ exact Hl | ]. split; [ exact Hst | ].
  split; [ exact Hf | ]. split; [ exact Hb | ]. split; [ exact Ho | ].
  intros Hall. rewrite (Hv Hall). cbn [pending_raise suppressed_exc].
  destruct exc_value; reflexivity.
Qed.

Lemma enumerate_length (keys : list bytes) :
  forall idx, length (enumerate idx keys) = length keys.
Proof.
  induction keys as [| key keys IH]; intros idx; [ reflexivity | ].
  cbn [enumerate length]. rewrite IH. reflexivity.
Qed.

Local Arguments Z.add : simpl never.

Lemma nth_error_enumerated (keys : list bytes) :
  forall (idx : Z) (n i : nat) (key : bytes) (port : Z),
  nth_error (map (fun p => (snd p, (9000 + fst p)%Z))
               (firstn n (enumerate idx keys))) i = Some (key, port) ->
  nth_error keys i = Some key /\ port = (9000 + idx + Z.of_nat i)%Z.
Proof.
  induction keys as [| k keys IH]; intros idx n i key port H.
  - cbn [enumerate] in H. rewrite firstn_nil in H. destruct i; discriminate.
  - destruct n as [| n]; [ destruct i; discriminate | ].
    cbn [enumerate firstn map fst snd] in H.
    destruct i as [| i]; cbn [nth_error] in *.
    + injection H as Hk Hp. subst. split; [ reflexivity | lia ].
    + destruct (IH _ _ _ _ _ H) as [Hk Hp]. split; [ exact Hk | lia ].
Qed.

Lemma launches_without_failures (t : list session_event) :
  failed_launches t = [] -> launches t = map fst (started t).
Proof.
  induction t as [| ev t IH]; [ reflexivity | ].
  destruct ev as [key port [link | e] | |];
    cbn [failed_launches launches started map fst]; intros H;
    try discriminate; rewrite (IH H); reflexivity.
Qed.

Lemma exit_callbacks_last_raise (stack : ExitStack) :
  forall (vars : exit_vars) (s : state) (before after : list (result bool))
         (e : exception),
  let '(vars', s', t) := exit_callbacks stack vars s in
  exit_results t = before ++ Raise e :: after ->
  Forall (eq (Ok false)) after ->
  exc vars' = Some e /\ pending_raise vars' = true.
Proof.
  induction stack as [| [key port] stack IH]; intros vars s before after e.
  - cbn [exit_callbacks exit_results]. intros H. destruct before; discriminate.
  - cbn [exit_callbacks].
    destruct (launch_trin_exit key port (exc vars) (world s)) as [r w].
    match goal with
    | |- context [exit_callbacks stack ?v ?s0] =>
        pose proof (exit_callbacks_run stack v s0) as Hrun;
        pose proof (IH v s0) as IH';
        destruct (exit_callbacks stack v s0) as [[vars1 s1] t1]
    end.
    cbn [exit_results]. intros H Hall.
    destruct before as [| b before]; cbn [app] in H.
    + injection H as Hr Ht. subst r.
      destruct Hrun as (_ & _ & _ & _ & _ & _ & Hv).
      rewrite Ht in Hv. rewrite (Hv Hall). split; reflexivity.
    + injection H as Hr Ht. exact (IH' before after e Ht Hall).
Qed.

Lemma ExitStack__exit___last_raise (stack : ExitStack)
    (exc_value : option exception) (s : state)
    (before after : list (result bool)) (e : exception) :
  let '(r, s', t) := ExitStack__exit__ stack exc_value s in
  exit_results t = before ++ Raise e :: after ->
  Forall (eq (Ok false)) after ->
  r = Raise e.
Proof.
  unfold ExitStack__exit__.
  match goal with
  | |- context [exit_callbacks stack ?v s] =>
      pose proof (exit_callbacks_last_raise stack v s before after e) as H;
      destruct (exit_callbacks stack v s) as [[vars1 s1] t1]
  end.
  intros Ht Hall. destruct (H Ht Hall) as [Hexc Hp].
  rewrite Hp, Hexc. reflexivity.
Qed.

(** The shape of a session. *)
Lemma launch_trin_inserters_run (keys : list bytes) (self : ref)
    (body : ref -> M unit) (s : state) :
  let out := launch_trin_inserters keys self body s in
  exists entering leaving,
    stopped entering = [] /\ exit_results entering = [] /\
    body_events entering = [] /\
    launches entering
    = map (fun p => (snd p, (9000 + fst p)%Z))
        (firstn (length (launches entering)) (enumerate 0 keys)) /\
    launches leaving = [] /\ started leaving = [] /\
    failed_launches leaving = [] /\ body_events leaving = [] /\
    stopped leaving = rev (map fst (started entering)) /\
    (forall before e after,
       exit_results leaving = before ++ Raise e :: after ->
       Forall (eq (Ok false)) after ->
       session_res out = Raise e) /\
    ((exists key port e,
        failed_launches entering = [(key, port, e)] /\
        session_emitted out = entering ++ leaving /\
        (exists e', session_res out = Raise e') /\
        (Forall (eq (Ok false)) (exit_results leaving) ->
         session_res out = Raise e)) \/
     (exists s',
        failed_launches entering = [] /\
        length (launches entering) = length keys /\
        _web3_links (objects s' self) = map snd (started entering) /\
        (forall r, r <> self -> objects s' r = objects s r) /\
        session_emitted out
        = entering ++ map InBody (emitted (body self s')) ++ leaving /\
        (Forall (eq (Ok false)) (exit_results leaving) ->
         session_res out = res (body self s')))).
Proof.
  cbv zeta. unfold launch_trin_inserters.
  pose proof (enter_contexts_run (enumerate 0 keys) [] s) as He.
  destruct (enter_contexts (enumerate 0 keys) [] s) as [[[r stack] s1] t1].
  destruct He as (Hstack & Hl & Hs & Hx & Hb & Ho & Hr).
  rewrite app_nil_r in Hstack.
  destruct r as [web3_links | e].
  - destruct Hr as (-> & Hf & Hlen). rewrite enumerate_length in Hlen.
    set (s' := final (PortalInserter__init__ self (map snd (started t1)) s1)).
    set (exc_value := match res (body self s') with
                      | Ok _ => None
                      | Raise e => Some e
                      end).
    pose proof (ExitStack__exit___run stack exc_value (final (body self s')))
      as Hexit.
    pose proof (ExitStack__exit___last_raise stack exc_value
                  (final (body self s'))) as Hlast.
    destruct (ExitStack__exit__ stack exc_value (final (body self s')))
      as [[leaving s3] t3].
    destruct Hexit as (Hst & Hl3 & Hs3 & Hf3 & Hb3 & _ & Hleft).
    cbn [session_res session_emitted].
    exists t1, t3. rewrite Hstack in Hst.
    repeat (split; [ assumption | ]).
    split.
    { intros before e after Ht Hall. rewrite (Hlast before after e Ht Hall).
      reflexivity. }
    right. exists s'.
    split; [ exact Hf | ]. split; [ exact Hlen | ].
    split; [ unfold s', PortalInserter__init__, set_web3_links;
             cbn [final objects]; rewrite Nat.eqb_refl; reflexivity | ].
    split; [ intros r Hne; unfold s', PortalInserter__init__, set_web3_links;
             cbn [final objects];
             destruct (Nat.eqb_spec r self); [ contradiction | ];
             rewrite Ho; reflexivity | ].
    split; [ reflexivity | ].
    intros Hall. rewrite (Hleft Hall).
    destruct (res (body self s')) as [[] | e]; reflexivity.
  - destruct Hr as (key & port & Hf).
    pose proof (ExitStack__exit___run stack (Some e) s1) as Hexit.
    pose proof (ExitStack__exit___last_raise stack (Some e) s1) as Hlast.
    destruct (ExitStack__exit__ stack (Some e) s1) as [[leaving s2] t2].
    destruct Hexit as (Hst & Hl3 & Hs3 & Hf3 & Hb3 & _ & Hleft).
    cbn [session_res session_emitted].
    exists t1, t2. rewrite Hstack in Hst.
    repeat (split; [ assumption | ]).
    split.
    { intros before e0 after Ht Hall. rewrite (Hlast before after e0 Ht Hall).
      reflexivity. }
    left. exists key, port, e.
    split; [ exact Hf | ]. split; [ reflexivity | ]. split.
    + destruct leaving as [[] | e']; eauto.
    + intros Hall. rewrite (Hleft Hall). reflexivity.
Qed.

Ltac read_session :=
  repeat first
    [ rewrite launches_app | rewrite started_app | rewrite failed_launches_app
    | rewrite stopped_app | rewrite exit_results_app | rewrite body_events_app
    | rewrite (proj1 (in_body_events _))
    | rewrite (proj1 (proj2 (in_body_events _)))
    | rewrite (proj1 (proj2 (proj2 (in_body_events _))))
    | rewrite (proj1 (proj2 (proj2 (proj2 (in_body_events _)))))
    | rewrite (proj1 (proj2 (proj2 (proj2 (proj2 (in_body_events _))))))
    | rewrite (proj2 (proj2 (proj2 (proj2 (proj2 (in_body_events _)))))) ].

(** X8: [launch_trin_inserters] launches one node per key, in the order of
    the keys, the node of the i-th key (counting from 0) on port 9000 + i,
    and launches no further node once a launch has raised; when no launch
    raises there is one launch per key. *)
Theorem launch_trin_inserters_ports (keys : list bytes) (self : ref)
    (body : ref -> M unit) (s : state) :
  let t := session_emitted (launch_trin_inserters keys self body s) in
  (forall i key port,
     nth_error (launches t) i = Some (key, port) ->
     nth_error keys i = Some key /\ port = (9000 + Z.of_nat i)%Z) /\
  length (launches t) <= length keys /\
  length (failed_launches t) <= 1 /\
  (failed_launches t = [] -> length (launches t) = length keys).
Proof.
  cbv zeta.
  destruct (launch_trin_inserters_run keys self body s)
    as (entering & leaving & Hs & Hx & Hb & Hl & Hl' & Hst' & Hf' & Hb' & _ & _
        & H).
  assert (Hall : launches
                   (session_emitted (launch_trin_inserters keys self body s))
                 = launches entering /\
                 failed_launches
                   (session_emitted (launch_trin_inserters keys self body s))
                 = failed_launches entering).
  { destruct H as [(key & port & e & _ & -> & _)
                  | (s' & _ & _ & _ & _ & -> & _)];
      read_session; rewrite Hl', Hf', !app_nil_r; auto. }
  destruct Hall as [-> ->].
  split; [ | split; [ | split ] ].
  - intros i key port Hnth. rewrite Hl in Hnth.
    destruct (nth_error_enumerated _ _ _ _ Hnth) as [Hk Hp].
    split; [ exact Hk | lia ].
  - rewrite Hl at 1. rewrite length_map, length_firstn, enumerate_length. lia.
  - destruct H as [(key & port & e & -> & _) | (s' & -> & _)]; cbn; lia.
  - intros Hnone.
    destruct H as [(key & port & e & Hf & _) | (s' & _ & Hlen & _)];
      [ congruence | exact Hlen ].
Qed.

(** X9: every node [launch_trin_inserters] started is stopped, exactly
    once and in the reverse order of starting, whether a later launch
    raised, the body returned or the body raised; nothing else is stopped. *)
Theorem launch_trin_inserters_stops_what_it_started (keys : list bytes)
    (self : ref) (body : ref -> M unit) (s : state) :
  let t := session_emitted (launch_trin_inserters keys self body s) in
  stopped t = rev (map fst (started t)).
Proof.
  cbv zeta.
  destruct (launch_trin_inserters_run keys self body s)
    as (entering & leaving & Hs & Hx & Hb & Hl & Hl' & Hst' & Hf' & Hb' & Hstop
        & _ & H).
  destruct H as [(key & port & e & _ & -> & _) | (s' & _ & _ & _ & _ & -> & _)];
    read_session; rewrite Hs, Hst', Hstop, ?app_nil_r; reflexivity.
Qed.

(** X10: the body of the [with] statement runs exactly when every launch
    returned; it then runs once, after all launches and before all stops,
    with a [PortalInserter] whose [_web3_links] are the links the launches
    returned, in the order of the keys, every other object being as before.
    When a launch raised, the body does not run and the statement raises. *)
Theorem launch_trin_inserters_body (keys : list bytes) (self : ref)
    (body : ref -> M unit) (s : state) :
  let out := launch_trin_inserters keys self body s in
  let t := session_emitted out in
  (failed_launches t = [] ->
   exists entering leaving s',
     t = entering ++ map InBody (emitted (body self s')) ++ leaving /\
     body_events entering = [] /\ stopped entering = [] /\
     body_events leaving = [] /\ launches leaving = [] /\
     body_events t = emitted (body self s') /\
     launches t = map (fun p => (snd p, (9000 + fst p)%Z)) (enumerate 0 keys) /\
     launches t = map fst (started t) /\
     _web3_links (objects s' self) = map snd (started t) /\
     (forall r, r <> self -> objects s' r = objects s r)) /\
  (failed_launches t <> [] ->
   body_events t = [] /\ exists e, session_res out = Raise e).
Proof.
  cbv zeta.
  destruct (launch_trin_inserters_run keys self body s)
    as (entering & leaving & Hs & Hx & Hb & Hl & Hl' & Hst' & Hf' & Hb' & Hstop
        & _ & H).
  destruct H as [(key & port & e & Hf & Ht & Hres & _)
                | (s' & Hf & Hlen & Hlinks & Hobj & Ht & _)];
    rewrite Ht; read_session;
    rewrite ?Hl', ?Hst', ?Hf', ?Hb, ?Hb', ?app_nil_r.
  - split; [ rewrite Hf; discriminate | ]. intros _. auto.
  - split; [ | intros Habs; contradiction ].
    intros _. exists entering, leaving, s'.
    rewrite <- (launches_without_failures _ Hf), Hlinks.
    repeat split; try assumption.
    rewrite Hl, Hlen, <- (enumerate_length keys 0), firstn_all. reflexivity.
Qed.

(** X11: when no exit callback raises or swallows, exceptions pass through
    the [with] statement unchanged: a launch that raised makes the
    statement raise that exception, and otherwise the statement ends as the
    body ended. *)
Theorem launch_trin_inserters_passes_exceptions (keys : list bytes)
    (self : ref) (body : ref -> M unit) (s : state) :
  let out := launch_trin_inserters keys self body s in
  let t := session_emitted out in
  Forall (eq (Ok false)) (exit_results t) ->
  (forall key port e,
     In (key, port, e) (failed_launches t) -> session_res out = Raise e) /\
  (failed_launches t = [] ->
   exists s',
     _web3_links (objects s' self) = map snd (started t) /\
     body_events t = emitted (body self s') /\
     session_res out = res (body self s')).
Proof.
  cbv zeta.
  destruct (launch_trin_inserters_run keys self body s)
    as (entering & leaving & Hs & Hx & Hb & Hl & Hl' & Hst' & Hf' & Hb' & Hstop
        & _ & H).
  destruct H as [(key & port & e & Hf & Ht & _ & Hres)
                | (s' & Hf & Hlen & Hlinks & Hobj & Ht & Hres)];
    rewrite Ht; read_session;
    rewrite ?Hx, ?Hst', ?Hf', ?Hb, ?Hb', ?app_nil_r; cbn [app];
    intros Hall; specialize (Hres Hall).
  - split; [ | rewrite Hf; discriminate ].
    intros key' port' e' Hin. rewrite Hf in Hin.
    destruct Hin as [Hin | []]. inversion Hin; subst. exact Hres.
  - split; [ rewrite Hf; intros ? ? ? [] | ].
    intros _. exists s'. auto.
Qed.

(** X12: an exit callback that raises takes over: when the last exit
    callback that did anything but return false raised [e], the [with]
    statement raises [e], whatever the launches or the body had raised. *)
Theorem launch_trin_inserters_exit_failure_wins (keys : list bytes)
    (self : ref) (body : ref -> M unit) (s : state)
    (before after : list (result bool)) (e : exception) :
  let out := launch_trin_inserters keys self body s in
  exit_results (session_emitted out) = before ++ Raise e :: after ->
  Forall (eq (Ok false)) after ->
  session_res out = Raise e.
Proof.
  cbv zeta.
  destruct (launch_trin_inserters_run keys self body s)
    as (entering & leaving & Hs & Hx & Hb & Hl & Hl' & Hst' & Hf' & Hb' & Hstop
        & Hlast & H).
  destruct H as [(key & port & e0 & _ & -> & _) | (s' & _ & _ & _ & _ & -> & _)];
    read_session; rewrite Hx; cbn [app]; apply Hlast.
Qed.

(** X13: [push_history] as the body of the [with] statement: when every
    launch returned, the store requests go to the links the launches
    returned, in the order of the keys, each with the same hex pair, up to
    and including the first request that raises.  Either no request raised
    and every link was sent the pair; or the links are
    [before ++ w3 :: after], the requests to [before] returned, the request
    to [w3] raised and is the last event of the body, and the links of
    [after] were sent nothing. *)
Theorem push_history_in_session (keys : list bytes) (self : ref)
    (content_key content_value : bytes) (s : state) :
  let out := launch_trin_inserters keys self
               (fun portal_inserter =>
                  push_history portal_inserter content_key content_value) s in
  let t := session_emitted out in
  let web3_links := map snd (started t) in
  let request := store_request content_key content_value in
  failed_launches t = [] ->
  (quiet (body_events t) = true /\
   store_requests (body_events t) = map request web3_links) \/
  (exists before w3 after e sent,
     web3_links = before ++ w3 :: after /\
     body_events t
     = sent ++ [MakeRequest w3 "portal_historyStore"
                  [encode_hex content_key; encode_hex content_value]
                  (Raise e)] /\
     quiet sent = true /\
     store_requests sent = map request before /\
     store_requests (body_events t) = map request (before ++ [w3])).
Proof.
  cbv zeta.
  destruct (launch_trin_inserters_run keys self
              (fun portal_inserter =>
                 push_history portal_inserter content_key content_value) s)
    as (entering & leaving & Hs & Hx & Hb & Hl & Hl' & Hst' & Hf' & Hb' & Hstop
        & _ & H).
  destruct H as [(key & port & e & Hf & Ht & _)
                | (s' & Hf & Hlen & Hlinks & Hobj & Ht & _)];
    rewrite Ht; read_session;
    rewrite ?Hst', ?Hf', ?Hb, ?Hb', ?app_nil_r; cbn [app];
    [ rewrite Hf; discriminate | ].
  intros _. rewrite <- Hlinks.
  destruct (push_history_outcome self content_key content_value s')
    as (tried & He & [(Hfst & Hall & Hres)
                     | (before & w3 & after & e & Hlk & Htr & Hall & Hres)]).
  - left. rewrite He, push_events_requests, Hfst.
    split; [ apply push_events_all_returned; exact Hall | reflexivity ].
  - right.
    exists (map fst before), w3, after, e,
           (push_events content_key content_value before).
    split; [ exact Hlk | ].
    split; [ rewrite He, Htr, push_events_app; reflexivity | ].
    split; [ apply push_events_all_returned; exact Hall | ].
    split; [ apply push_events_requests | ].
    rewrite He, Htr, push_events_requests, map_app. reflexivity.
Qed.

End LauncherProperties.

(** * The further properties on the concrete worlds *)

Import Scenario2.

(** X2 at the healthy block. *)
Lemma handle_new_header_returns_only_when_all_pushed_witness :
  let out := @handle_new_header toy provider inserter (hash healthy) 1
               (start [1; 2]) in
  res out = Ok tt /\
  exists block_fields,
    fst (@get_block toy provider (hash healthy) false 0%nat) = Ok block_fields /\
    quiet (emitted out) = true /\
    receipt_waits (emitted out)
    = map (@receipt_request toy provider) (transactions block_fields).
Proof.
  cbv zeta.
  assert (Hres : res (@handle_new_header toy provider inserter (hash healthy) 1
                        (start [1; 2])) = Ok tt)
    by (vm_compute; reflexivity).
  split; [ exact Hres | ].
  destruct (@handle_new_header_returns_only_when_all_pushed toy provider
              inserter (hash healthy) 1 (start [1; 2]) Hres)
    as (block_fields & header & receipts & Hf & _ & _ & _ & _ & _ & Hq & Hw & _).
  exists block_fields. auto.
Defined.

(** X5 at three receipts of which the second is empty. *)
Lemma encode_receipts_content_undecodable_receipt_witness :
  (comprehension (fun r => @receipt_fields_to_receipt toy2 r 106) [[Byte.x01]]
     = Ok [[Byte.x01]] /\
   @receipt_fields_to_receipt toy2 [] 106 = Raise (OtherError "KeyError")) /\
  @encode_receipts_content toy2 [[Byte.x01]; []; [Byte.x02]] 1
    (hash undecodable) 106 (receiptsRoot undecodable)
  = Raise (OtherError "KeyError").
Proof.
  split; [ split; reflexivity | ].
  exact (@encode_receipts_content_undecodable_receipt toy2 [[Byte.x01]]
           [[Byte.x02]] [] [[Byte.x01]] 1 (hash undecodable) 106
           (receiptsRoot undecodable) (OtherError "KeyError")
           eq_refl eq_refl).
Defined.

(** X6 at the block without transactions, whose receipts root is the root
    of no receipts. *)
Lemma handle_new_header_block_without_transactions_witness :
  let out := @handle_new_header toy2 provider inserter (hash empty_block) 1
               (start2 [1; 2]) in
  (fst (@get_block toy2 provider (hash empty_block) false 0%nat)
     = Ok empty_block /\
   transactions empty_block = [] /\
   quiet (emitted out) = true /\
   fst (@make_trie_root_and_nodes toy2 []) = receiptsRoot empty_block) /\
  receipt_waits (emitted out) = [] /\
  res out = Ok tt /\
  push_history_calls (emitted out)
  = [("0x002120", "0x2021"); ("0x022120", "0x")].
Proof.
  cbv zeta.
  assert (Hquiet : quiet (emitted (@handle_new_header toy2 provider inserter
                                     (hash empty_block) 1 (start2 [1; 2])))
                   = true)
    by (vm_compute; reflexivity).
  split; [ repeat split; exact Hquiet | ].
  destruct (@handle_new_header_block_without_transactions toy2 provider
              inserter (hash empty_block) 1 (start2 [1; 2]) empty_block
              (Byte.x00 :: hash empty_block) [Byte.x20; Byte.x21]
              eq_refl eq_refl eq_refl Hquiet) as (Hw & Hyes & _).
  destruct (Hyes eq_refl) as [Hres Hcalls].
  split; [ exact Hw | ]. split; [ exact Hres | ].
  rewrite Hcalls. vm_compute. reflexivity.
Defined.

(** X7 at the healthy block. *)
Lemma propagate_header_returns_pushed_block_witness :
  let out := @propagate_header toy provider inserter 1 (hash healthy)
               (start [1; 2]) in
  res out = Ok healthy /\
  fst (@get_block toy provider (hash healthy) false 0%nat) = Ok healthy /\
  exists header,
    quiet (emitted out) = true /\
    store_requests (emitted out)
    = map (@store_request toy (@header_content_key toy (hash healthy) 1)
             (@rlp_encode toy header)) [1; 2].
Proof.
  cbv zeta.
  assert (Hres : res (@propagate_header toy provider inserter 1 (hash healthy)
                        (start [1; 2])) = Ok healthy)
    by (vm_compute; reflexivity).
  split; [ exact Hres | ].
  destruct (@propagate_header_returns_pushed_block toy provider inserter 1
              (hash healthy) (start [1; 2]) healthy Hres)
    as (Hf & header & _ & _ & _ & Hq & _ & Hreqs).
  split; [ exact Hf | ]. exists header. split; [ exact Hq | exact Hreqs ].
Defined.

(** X8 with two keys: the second node is on port 9001. *)
Lemma launch_trin_inserters_ports_witness :
  let t := session_emitted
             (@launch_trin_inserters toy2 trin2 [[Byte.x01]; [Byte.x02]] 5
                (fun _ => ret tt) (start2 [])) in
  (nth_error (launches t) 1 = Some ([Byte.x02], 9001%Z) /\
   failed_launches t = []) /\
  nth_error [[Byte.x01]; [Byte.x02]] 1 = Some [Byte.x02] /\
  9001%Z = (9000 + Z.of_nat 1)%Z /\
  length (launches t) = 2.
Proof.
  cbv zeta.
  set (t := session_emitted
              (@launch_trin_inserters toy2 trin2 [[Byte.x01]; [Byte.x02]] 5
                 (fun _ => ret tt) (start2 []))).
  assert (Hnth : nth_error (launches t) 1 = Some ([Byte.x02], 9001%Z))
    by (vm_compute; reflexivity).
  assert (Hnone : failed_launches t = []) by (vm_compute; reflexivity).
  split; [ split; assumption | ].
  destruct (@launch_trin_inserters_ports toy2 trin2 [[Byte.x01]; [Byte.x02]] 5
              (fun _ => ret tt) (start2 [])) as (Hports & _ & _ & Hall).
  destruct (Hports 1 [Byte.x02] 9001%Z Hnth) as [Hk Hp].
  split; [ exact Hk | ]. split; [ exact Hp | ]. exact (Hall Hnone).
Defined.

(** X10 with two keys and [push_history] as the body, and with a key whose
    launch raises. *)
Lemma launch_trin_inserters_body_witness :
  let body := fun portal_inserter =>
                @push_history toy2 portal_inserter [Byte.x0a] [Byte.x0b] in
  let launched := @launch_trin_inserters toy2 trin2 [[Byte.x01]; [Byte.x02]] 5
                    body (start2 []) in
  let failed := @launch_trin_inserters toy2 trin2 [[Byte.x01]; [Byte.xff]] 5
                  body (start2 []) in
  (failed_launches (session_emitted launched) = [] /\
   failed_launches (session_emitted failed) <> []) /\
  launches (session_emitted launched)
  = [([Byte.x01], 9000%Z); ([Byte.x02], 9001%Z)] /\
  body_events (session_emitted failed) = [] /\
  exists e, session_res failed = Raise e.
Proof.
  cbv zeta.
  assert (Hnone : failed_launches
                    (session_emitted
                       (@launch_trin_inserters toy2 trin2
                          [[Byte.x01]; [Byte.x02]] 5
                          (fun portal_inserter =>
                             @push_history toy2 portal_inserter [Byte.x0a]
                               [Byte.x0b]) (start2 []))) = [])
    by (vm_compute; reflexivity).
  assert (Hsome : failed_launches
                    (session_emitted
                       (@launch_trin_inserters toy2 trin2
                          [[Byte.x01]; [Byte.xff]] 5
                          (fun portal_inserter =>
                             @push_history toy2 portal_inserter [Byte.x0a]
                               [Byte.x0b]) (start2 []))) <> [])
    by (vm_compute; discriminate).
  split; [ split; assumption | ].
  destruct (proj1 (@launch_trin_inserters_body toy2 trin2
                     [[Byte.x01]; [Byte.x02]] 5 _ (start2 [])) Hnone)
    as (entering & leaving & s' & _ & _ & _ & _ & _ & _ & Hl & _).
  split; [ exact Hl | ].
  exact (proj2 (@launch_trin_inserters_body toy2 trin2
                  [[Byte.x01]; [Byte.xff]] 5 _ (start2 [])) Hsome).
Defined.

(** X11 with a body that raises. *)
Lemma launch_trin_inserters_passes_exceptions_witness :
  let body := fun _ : nat => (lift (Raise (OtherError "KeyboardInterrupt"))
                               : @M toy2 unit) in
  let out := @launch_trin_inserters toy2 trin2 [[Byte.x01]; [Byte.x02]] 5
               body (start2 []) in
  (Forall (eq (Ok false)) (exit_results (session_emitted out)) /\
   failed_launches (session_emitted out) = []) /\
  exists s', session_res out = res (body 5 s').
Proof.
  cbv zeta.
  set (body := fun _ : nat => (lift (Raise (OtherError "KeyboardInterrupt"))
                                : @M toy2 unit)).
  assert (Hexits : Forall (eq (Ok false))
                     (exit_results
                        (session_emitted
                           (@launch_trin_inserters toy2 trin2
                              [[Byte.x01]; [Byte.x02]] 5 body (start2 [])))))
    by (vm_compute; repeat constructor).
  assert (Hnone : failed_launches
                    (session_emitted
                       (@launch_trin_inserters toy2 trin2
                          [[Byte.x01]; [Byte.x02]] 5 body (start2 []))) = [])
    by (vm_compute; reflexivity).
  split; [ split; assumption | ].
  destruct (proj2 (@launch_trin_inserters_passes_exceptions toy2 trin2
                     [[Byte.x01]; [Byte.x02]] 5 body (start2 []) Hexits)
              Hnone) as (s' & _ & _ & Hres).
  exists s'. exact Hres.
Defined.

(** X12 with a node that cannot be stopped. *)
Lemma launch_trin_inserters_exit_failure_wins_witness :
  let out := @launch_trin_inserters toy2 trin2 [[Byte.xee]; [Byte.x01]] 5
               (fun _ => ret tt) (start2 []) in
  exit_results (session_emitted out)
  = [Ok false] ++ Raise (OtherError "ProcessLookupError") :: [] /\
  session_res out = Raise (OtherError "ProcessLookupError").
Proof.
  cbv zeta.
  assert (Hexits : exit_results
                     (session_emitted
                        (@launch_trin_inserters toy2 trin2
                           [[Byte.xee]; [Byte.x01]] 5 (fun _ => ret tt)
                           (start2 [])))
                   = [Ok false] ++ Raise (OtherError "ProcessLookupError") :: [])
    by (vm_compute; reflexivity).
  split; [ exact Hexits | ].
  exact (@launch_trin_inserters_exit_failure_wins toy2 trin2
           [[Byte.xee]; [Byte.x01]] 5 (fun _ => ret tt) (start2 [])
           [Ok false] [] (OtherError "ProcessLookupError") Hexits
           (Forall_nil _)).
Defined.

(** X13 with two keys, where every request returns, and with nine keys,
    where the ninth node is unreachable. *)
Lemma push_history_in_session_witness :
  let body := fun portal_inserter =>
                @push_history toy2 portal_inserter [Byte.x0a] [Byte.x0b] in
  let request := @store_request toy2 [Byte.x0a] [Byte.x0b] in
  let nine := map (fun b => [b])
                [Byte.x01; Byte.x02; Byte.x03; Byte.x04; Byte.x05; Byte.x06;
                 Byte.x07; Byte.x08; Byte.x09] in
  let returned := session_emitted
                    (@launch_trin_inserters toy2 trin2 [[Byte.x01]; [Byte.x02]]
                       5 body (start2 [])) in
  let failed := session_emitted
                  (@launch_trin_inserters toy2 trin2 nine 5 body (start2 [])) in
  (failed_launches returned = [] /\ failed_launches failed = []) /\
  (quiet (body_events returned) = true /\
   store_requests (body_events returned)
   = map request (map snd (started returned))) /\
  exists before w3 after e sent,
    map snd (started failed) = before ++ w3 :: after /\
    body_events failed
    = sent ++ [@MakeRequest toy2 w3 "portal_historyStore" ["0x0a"; "0x0b"]
                 (Raise e)] /\
    quiet sent = true /\
    store_requests sent = map request before /\
    store_requests (body_events failed) = map request (before ++ [w3]).
Proof.
  cbv zeta.
  set (body := fun portal_inserter =>
                 @push_history toy2 portal_inserter [Byte.x0a] [Byte.x0b]).
  set (nine := map (fun b => [b])
                 [Byte.x01; Byte.x02; Byte.x03; Byte.x04; Byte.x05; Byte.x06;
                  Byte.x07; Byte.x08; Byte.x09]).
  set (returned := session_emitted
                     (@launch_trin_inserters toy2 trin2
                        [[Byte.x01]; [Byte.x02]] 5 body (start2 []))).
  set (failed := session_emitted
                   (@launch_trin_inserters toy2 trin2 nine 5 body (start2 []))).
  assert (Hnone : failed_launches returned = []) by (vm_compute; reflexivity).
  assert (Hnone' : failed_launches failed = []) by (vm_compute; reflexivity).
  assert (Hquiet : quiet (body_events returned) = true)
    by (vm_compute; reflexivity).
  assert (Hquiet' : quiet (body_events failed) = false)
    by (vm_compute; reflexivity).
  split; [ split; assumption | ]. split.
  - destruct (@push_history_in_session toy2 trin2 [[Byte.x01]; [Byte.x02]] 5
                [Byte.x0a] [Byte.x0b] (start2 []) Hnone)
      as [H | (before & w3 & after & e & sent & _ & Hbody & _)];
      [ exact H | ].
    exfalso. fold body returned in Hbody.
    rewrite Hbody, quiet_app in Hquiet.
    apply andb_true_iff in Hquiet. destruct Hquiet as [_ Habs].
    discriminate Habs.
  - destruct (@push_history_in_session toy2 trin2 nine 5 [Byte.x0a] [Byte.x0b]
                (start2 []) Hnone') as [[Habs _] | H]; [ | exact H ].
    fold body failed in Habs. rewrite Hquiet' in Habs. discriminate Habs.
Defined.
